(** * stai: the Silicon-Transcription AI command line, [src/stai/__init__.py]

    A shallow embedding of the three commands ([transcribe],
    [download_model], [list_models]) and of their helpers, with the Python
    string methods they rely on, followed by the properties of the
    acquisition-and-invocation pipeline.

    Python [str] values are sequences of Unicode code points: a character is
    its code point, a string a list of characters.  Everything outside the
    process (the manifest file, the HTTP server, yt-dlp, the scripts and the
    whisper executable) is an explicit environment; everything the process
    does (echo, launch, open, write) is recorded in an explicit world. *)

From Stdlib Require Import ZArith NArith List String Ascii Lia Bool.
From stdpp Require Import base option list gmap.

Import ListNotations.
Open Scope Z_scope.

(** ** Python strings *)

Definition char := N.
Definition str := list char.

(** A literal of the source, character by character. *)
Fixpoint lit (s : string) : str :=
  match s with
  | EmptyString => []
  | String a s' => N_of_ascii a :: lit s'
  end.

Module Str.

(** [s.startswith(p)] *)
Fixpoint startswith (s p : str) {struct p} : bool :=
  match p, s with
  | [], _ => true
  | _ :: _, [] => false
  | c :: p', d :: s' => N.eqb c d && startswith s' p'
  end.

(** [sub in s] *)
Fixpoint contains (sub s : str) : bool :=
  startswith s sub ||
  match s with
  | [] => false
  | _ :: s' => contains sub s'
  end.

(** The scan of [s.find(sub, ...)]: [s] is what is left of the string from
    index [i] on; the lowest index of an occurrence, or [-1]. *)
Fixpoint find_from (sub s : str) (i : Z) : Z :=
  if startswith s sub then i
  else match s with
       | [] => -1
       | _ :: s' => find_from sub s' (i + 1)
       end.

(** [s.find(sub, start)] for [0 <= start] (the source never passes a negative
    start): nothing is found from a start beyond the end. *)
Definition find (s sub : str) (start : Z) : Z :=
  if Z.of_nat (length s) <? start then -1
  else find_from sub (drop (Z.to_nat start) s) start.

(** A slice bound: a negative one counts from the end, then both are clamped
    to [0 .. len]. *)
Definition clamp (len i : Z) : Z :=
  if i <? 0 then Z.max (i + len) 0 else Z.min i len.

(** [s[start:stop]] *)
Definition slice (s : str) (start stop : Z) : str :=
  let len := Z.of_nat (length s) in
  let a := clamp len start in
  let b := clamp len stop in
  take (Z.to_nat (b - a)) (drop (Z.to_nat a) s).

(** [s.split(sep)] for a one-character separator (both calls of the source
    split on one character): never the empty list. *)
Fixpoint split (sep : char) (s : str) : list str :=
  match s with
  | [] => [[]]
  | c :: s' =>
      if N.eqb c sep then [] :: split sep s'
      else match split sep s' with
           | [] => [[c]]
           | w :: ws => (c :: w) :: ws
           end
  end.

(** [pieces[-1]] on the result of a split *)
Definition last_piece (pieces : list str) : str := List.last pieces [].

(** [c.isspace()]: the code points CPython's [_PyUnicode_IsWhitespace]
    accepts. *)
Definition isspace (c : char) : bool :=
  ((9 <=? c) && (c <=? 13) || (28 <=? c) && (c <=? 32) ||
   (c =? 133) || (c =? 160) || (c =? 5760) ||
   (8192 <=? c) && (c <=? 8202) || (c =? 8232) || (c =? 8233) ||
   (c =? 8239) || (c =? 8287) || (c =? 12288))%N.

(** [s.lstrip()], [s.rstrip()], [s.strip()] *)
Fixpoint lstrip (s : str) : str :=
  match s with
  | [] => []
  | c :: s' => if isspace c then lstrip s' else s
  end.

Definition rstrip (s : str) : str := rev (lstrip (rev s)).

Definition strip (s : str) : str := rstrip (lstrip s).

(** [sep.join(l)] *)
Fixpoint join (sep : str) (l : list str) : str :=
  match l with
  | [] => []
  | [x] => x
  | x :: l' => x ++ sep ++ join sep l'
  end.

End Str.

(** The characters the source names. *)
Definition NL : char := 10%N.
Definition QUOTE : char := 34%N.
Definition RBRACKET : char := 93%N.

(** ** Transcript extraction ([transcribe], the loop over [result.stdout]) *)

(** The test of the loop: [line.startswith("[") and "-->" in line]. *)
Definition is_caption (line : str) : bool :=
  Str.startswith line (lit "[") && Str.contains (lit "-->") line.

(** What the loop appends: [line.split("]")[-1].strip()]. *)
Definition caption_text (line : str) : str :=
  Str.strip (Str.last_piece (Str.split RBRACKET line)).

(** One iteration: [transcription_lines] before and after. *)
Definition extract_step (transcription_lines : list str) (line : str) : list str :=
  if is_caption line then transcription_lines ++ [caption_text line]
  else transcription_lines.

(** The whole loop, from the empty list. *)
Definition transcription_lines (stdout : str) : list str :=
  fold_left extract_step (Str.split NL stdout) [].

(** ["\n".join(transcription_lines)] *)
Definition transcription (stdout : str) : str :=
  Str.join [NL] (transcription_lines stdout).

(** ** The model catalog ([_get_whisper_models], after the file is read) *)

Definition WHISPER_CPP_PATH : str := lit "./whisper.cpp".
Definition PREFIX_WHISPER_CPP_CLI : str :=
  WHISPER_CPP_PATH ++ lit "/build/bin/whisper-cli".

(** The marker of the source: [models=] and a double quote, eight characters. *)
Definition MARKER : str := lit "models=" ++ [QUOTE].

(** From [content] to [models_list]. *)
Definition models_of_manifest (content : str) : list str :=
  let start := Str.find content MARKER 0 + 8 in
  let end_ := Str.find content [QUOTE] start in
  let models_text := Str.slice content start end_ in
  Str.split NL (Str.strip models_text).

(** ** The process and its environment *)

Definition bytes := list Byte.byte.

(** What a file holds: text written through a text-mode handle, or bytes. *)
Inductive content :=
| Text (s : str)
| Bytes (b : bytes).

Abbreviation files := (gmap str content).

(** The two streams of [typer.echo]. *)
Inductive channel := Out | Err.

(** The messages of the source, one constructor per [typer.echo] call, with
    the values its f-string interpolates. *)
Inductive message :=
| MsgInputRequired                    (* Either file_path or youtube_url must be provided. *)
| MsgModelNotFound (models : list str) (* Model not found. Available models: {models} *)
| MsgSaved (path : str)               (* Transcription saved to {path} *)
| MsgDownloaded (model : str)         (* Successfully downloaded {model}, preparing CoreML model... *)
| MsgCoreMLDone                       (* CoreML model preparation completed successfully *)
| MsgCoreMLFailed                     (* CoreML model preparation failed *)
| MsgCommandFailed (returncode : Z)   (* Command failed with return code {returncode} *)
| MsgPresent (model : str)            (* the check mark, then {model} *)
| MsgMissing (model : str).           (* the cross mark, then {model} *)

(** The exceptions that can leave a function of the source. *)
Inductive exn :=
| FileNotFoundError (path : str)
| DownloadFailed (status_code : Z)    (* Exception("Failed to download file. Status: {status_code}") *)
| CalledProcessError (returncode : Z)
| RequestException
| DownloadError
| UnicodeDecodeError
| PermissionError (path : str).

(** [requests.get(..., stream=True)]: the status and the chunks
    [iter_content(chunk_size=1024)] yields; the body is their concatenation. *)
Record Response := { status_code : Z; iter_content : list bytes }.

Definition body (r : Response) : bytes := concat (iter_content r).

(** [subprocess.run(..., capture_output=True, text=True)] *)
Record CompletedProcess := { returncode : Z; stdout : str; stderr : str }.

(** What launching an argument vector gives: the exit status of the child, or
    no child at all (no such program). *)
Inductive launch :=
| Exited (returncode : Z)
| NoSuchProgram.

Inductive outcome (A : Type) :=
| Return (a : A)
| Raise (e : exn).
Arguments Return {A} a.
Arguments Raise {A} e.

(** Everything outside the process.  The external programs see the files the
    process has written so far. *)
Record Env := {
  (** [file.read()] on the download script, [None] when it cannot be opened *)
  manifest : option str;
  (** [requests.get(url, headers=..., stream=True)] *)
  requests_get : str -> list (str * str) -> outcome Response;
  (** [YoutubeDL(opts).download([url])] with [outtmpl]; [None] is success *)
  ydl_download : str -> str -> files -> option exn;
  (** [subprocess.run(cmd, capture_output=True, text=True, shell=True)]: the
      completed process, whatever its exit status, or the exception of the
      call (the output cannot be decoded as text, the shell cannot be
      started) *)
  run_shell : str -> files -> outcome CompletedProcess;
  (** [open(path, "w")]: [None] when the file can be created or emptied, the
      exception otherwise (no such directory, no permission) *)
  open_for_writing : str -> option exn;
  (** an argument vector run without a shell *)
  run_argv : list str -> files -> launch;
  (** [Path(p).exists()] *)
  path_exists : str -> bool
}.

(** What the process does, in order. *)
Inductive event :=
| Echo (ch : channel) (m : message)
| ReadManifest
| HttpGet (url : str)
| YoutubeDL (url outtmpl : str)
| RunShell (cmd : str)
| RunArgv (argv : list str)
| OpenWrite (path : str)
| Write (path : str) (data : content)
| Exists (path : str).

Record World := { written : files; trace : list event }.

(** Commands: a state and exception monad over the world. *)
Definition M (A : Type) : Type := World -> outcome A * World.

#[global] Instance M_ret : MRet M := fun A a w => (Return a, w).
#[global] Instance M_bind : MBind M := fun A B f m w =>
  match m w with
  | (Return a, w') => f a w'
  | (Raise e, w') => (Raise e, w')
  end.

Definition raise {A} (e : exn) : M A := fun w => (Raise e, w).

(** [try: m  except subprocess.CalledProcessError as e: handler e.returncode] *)
Definition try_except_CalledProcessError (m : M unit) (handler : Z -> M unit) : M unit :=
  fun w =>
    match m w with
    | (Raise (CalledProcessError rc), w') => handler rc w'
    | r => r
    end.

Definition log (e : event) : M unit :=
  fun w => (Return tt, {| written := written w; trace := trace w ++ [e] |}).

Definition get_files : M files := fun w => (Return (written w), w).

Definition put_file (path : str) (c : content) : M unit :=
  fun w => (Return tt, {| written := <[path := c]> (written w); trace := trace w |}).

(** [typer.echo(m)] and [typer.echo(m, err=True)] *)
Definition echo (ch : channel) (m : message) : M unit := log (Echo ch m).

(** [open(path, "w")] on a path the user chose: the file is created or
    emptied, or the exception of the environment is raised and no file is
    touched. *)
Definition open_w (env : Env) (path : str) : M unit :=
  log (OpenWrite path);;
  match open_for_writing env path with
  | Some e => raise e
  | None => put_file path (Text [])
  end.

(** [open(filename, "wb")] on the fixed name the command passes, in the
    working directory: the file is created or emptied. *)
Definition open_wb (path : str) : M unit := log (OpenWrite path);; put_file path (Bytes []).

Definition text_of (c : option content) : str :=
  match c with Some (Text s) => s | _ => [] end.
Definition bytes_of (c : option content) : bytes :=
  match c with Some (Bytes b) => b | _ => [] end.

(** [f.write(data)]: appended to what the handle wrote before. *)
Definition write_text (path : str) (data : str) : M unit :=
  log (Write path (Text data));;
  fs ← get_files; put_file path (Text (text_of (fs !! path) ++ data)).
Definition write_bytes (path : str) (data : bytes) : M unit :=
  log (Write path (Bytes data));;
  fs ← get_files; put_file path (Bytes (bytes_of (fs !! path) ++ data)).

(** [for x in l: body x] *)
Fixpoint for_each {A} (l : list A) (body : A -> M unit) : M unit :=
  match l with
  | [] => mret tt
  | x :: l' => body x;; for_each l' body
  end.

(** ** The helpers *)

Definition MANIFEST_PATH : str := WHISPER_CPP_PATH ++ lit "/models/download-ggml-model.sh".

Definition _get_whisper_models (env : Env) : M (list str) :=
  log ReadManifest;;
  match manifest env with
  | None => raise (FileNotFoundError MANIFEST_PATH)
  | Some content => mret (models_of_manifest content)
  end.

(** The options (bestaudio, wav, 16 kHz, mono, quiet) are fixed; [outtmpl] is
    [filename]. *)
Definition _download_file_from_youtube (env : Env) (url filename : str) : M str :=
  log (YoutubeDL url filename);;
  fs ← get_files;
  match ydl_download env url filename fs with
  | Some e => raise e
  | None => mret (filename ++ lit ".wav")
  end.

Definition _download_file_from_url (env : Env) (url filename : str)
    (url_headers : option (list (str * str))) : M str :=
  let url_headers := default [] url_headers in
  log (HttpGet url);;
  match requests_get env url url_headers with
  | Raise e => raise e
  | Return response =>
      (if status_code response =? 200 then
         open_wb filename;;
         for_each (iter_content response) (fun chunk =>
           match chunk with
           | [] => mret tt
           | _ :: _ => write_bytes filename chunk
           end)
       else raise (DownloadFailed (status_code response)));;
      mret filename
  end.

(** ** The commands *)

Inductive TranscriptionMode := FILE | URL | YOUTUBE | NOT_DETERMINED.

(** [if x:] on an optional string: neither [None] nor empty. *)
Definition truthy (x : option str) : bool :=
  match x with
  | Some (_ :: _) => true
  | _ => false
  end.

Definition is_youtube (url : str) : bool :=
  Str.startswith url (lit "https://www.youtube.com/watch?v=") ||
  Str.startswith url (lit "https://youtu.be/").

(** The string an optional argument holds; the source reads it only on paths
    where it is not [None]. *)
Definition the (x : option str) : str := default [] x.

(** [_mode] where the first conditional leaves it. *)
Definition determine_mode (file_path url : option str) : TranscriptionMode :=
  if truthy file_path then FILE
  else if truthy url then
    if is_youtube (the url) then YOUTUBE else URL
  else NOT_DETERMINED.

Definition whisper_command (model audio_path : str) : str :=
  PREFIX_WHISPER_CPP_CLI ++ lit " -m " ++ WHISPER_CPP_PATH ++ lit "/models/ggml-" ++
  model ++ lit ".bin -f " ++ audio_path.

(** [transcribe] from the call of [subprocess.run] on. *)
Definition run_and_save (env : Env) (model audio_path : str) : M unit :=
  log (RunShell (whisper_command model audio_path));;
  fs ← get_files;
  match run_shell env (whisper_command model audio_path) fs with
  | Raise e => raise e
  | Return result =>
      let transcription := transcription (stdout result) in
      open_w env (audio_path ++ lit ".txt");;
      write_text (audio_path ++ lit ".txt") transcription;;
      echo Out (MsgSaved (audio_path ++ lit ".txt"))
  end.

(** The acquisition of the three modes. *)
Definition acquire (env : Env) (_mode : TranscriptionMode) (file_path url : option str) : M str :=
  match _mode with
  | YOUTUBE => _download_file_from_youtube env (the url) (lit "yt_audio")
  | URL => _download_file_from_url env (the url) (lit "url_audio") None
  | _ => mret (the file_path)
  end.

(** [transcribe] from [models = _get_whisper_models()] on. *)
Definition transcribe_in_mode (env : Env) (_mode : TranscriptionMode)
    (model : str) (file_path url : option str) : M unit :=
  models ← _get_whisper_models env;
  if bool_decide (model ∈ models) then
    audio_path ← acquire env _mode file_path url;
    run_and_save env model audio_path
  else echo Err (MsgModelNotFound models).

Definition transcribe (env : Env) (model : str) (file_path url : option str) : M unit :=
  if truthy file_path then transcribe_in_mode env FILE model file_path url
  else if truthy url then
    if is_youtube (the url) then transcribe_in_mode env YOUTUBE model file_path url
    else transcribe_in_mode env URL model file_path url
  else echo Err MsgInputRequired.

Definition DOWNLOAD_SCRIPT : str := WHISPER_CPP_PATH ++ lit "/models/download-ggml-model.sh".
Definition COREML_SCRIPT : str := WHISPER_CPP_PATH ++ lit "/models/generate-coreml-model.sh".

(** [subprocess.run(argv, check=True)] *)
Definition run_checked (env : Env) (argv : list str) : M Z :=
  log (RunArgv argv);;
  fs ← get_files;
  match run_argv env argv fs with
  | NoSuchProgram => raise (FileNotFoundError (the (head argv)))
  | Exited rc => if rc =? 0 then mret rc else raise (CalledProcessError rc)
  end.

(** The argument vector of the second call: one string, the script and the
    model separated by a space. *)
Definition coreml_argv (model : str) : list str := [COREML_SCRIPT ++ lit " " ++ model].

Definition download_model (env : Env) (model : str) : M unit :=
  models ← _get_whisper_models env;
  if bool_decide (model ∈ models) then
    try_except_CalledProcessError
      (returncode ← run_checked env [DOWNLOAD_SCRIPT; model];
       if returncode =? 0 then
         echo Out (MsgDownloaded model);;
         coreml_returncode ← run_checked env (coreml_argv model);
         if coreml_returncode =? 0 then echo Out MsgCoreMLDone
         else echo Err MsgCoreMLFailed
       else mret tt)
      (fun rc => echo Err (MsgCommandFailed rc))
  else echo Err (MsgModelNotFound models).

Definition weights_path (model : str) : str :=
  WHISPER_CPP_PATH ++ lit "/models/ggml-" ++ model ++ lit ".bin".

Definition list_models (env : Env) : M unit :=
  models ← _get_whisper_models env;
  for_each models (fun model =>
    log (Exists (weights_path model));;
    if path_exists env (weights_path model) then echo Out (MsgPresent model)
    else echo Out (MsgMissing model)).

(** ** The specification's wording, to compare the code with *)

(** The classification as the specification words it: a non-empty file path
    selects the file; otherwise a supplied URL is a YouTube one or a direct
    one; with both absent the mode is not determined. *)
Definition mode_as_specified (file_path url : option str) : TranscriptionMode :=
  match file_path, url with
  | Some (_ :: _), _ => FILE
  | _, Some u => if is_youtube u then YOUTUBE else URL
  | _, None => NOT_DETERMINED
  end.

(** An optional argument that counts as not given: [None] or empty. *)
Definition not_given (x : option str) : Prop := x = None \/ x = Some [].

(** Everything after the last [c] of [s]; the whole of [s] when it has none. *)
Fixpoint after_last (c : char) (s : str) : str :=
  match s with
  | [] => []
  | d :: s' =>
      if existsb (N.eqb c) s' then after_last c s'
      else if N.eqb d c then s' else s
  end.

(** A text with no white space at either end. *)
Definition tight (t : str) : bool :=
  match t with
  | [] => true
  | c :: _ => negb (Str.isspace c) && negb (Str.isspace (List.last t 0%N))
  end.

(** Extraction as the specification words it: the lines of the raw output,
    those of the caption shape kept, each mapped to the trimmed text after its
    last closing bracket, joined by single newlines. *)
Definition extract_as_specified (raw : str) : str :=
  Str.join [NL]
    (map (fun line => Str.strip (after_last RBRACKET line))
       (filter (fun line => Is_true (is_caption line)) (Str.split NL raw))).

(** A model identifier of a manifest: not empty, no white space, no quote. *)
Definition is_identifier (s : str) : bool :=
  match s with
  | [] => false
  | _ :: _ => forallb (fun c => negb (Str.isspace c) && negb (N.eqb c QUOTE)) s
  end.

(** A manifest whose list of models is [ids]. *)
Definition manifest_with (before : str) (ids : list str) (after : str) : str :=
  before ++ MARKER ++ Str.join [NL] ids ++ QUOTE :: after.

(** The events that are an acquisition, a launch or a file write. *)
Definition is_side_effect (e : event) : bool :=
  match e with
  | HttpGet _ | YoutubeDL _ _ | RunShell _ | RunArgv _ | OpenWrite _ | Write _ _ => true
  | Echo _ _ | ReadManifest | Exists _ => false
  end.

(** The world after more events. *)
Definition after_events (w : World) (es : list event) : World :=
  {| written := written w; trace := trace w ++ es |}.

(** ** Concrete inputs *)

Definition raw_example : str :=
  lit "[00:00:00.000 --> 00:00:02.000]  hello world" ++ [NL] ++
  lit "some noise" ++ [NL] ++
  lit "[00:00:02.000 --> 00:00:04.000]  second line".

(** A script with no models line. *)
Definition manifest_without_marker : str :=
  lit "#!/bin/sh" ++ [NL] ++ lit "echo " ++ [QUOTE] ++ lit "hi" ++ [QUOTE] ++ [NL].

Definition manifest_abc : str :=
  MARKER ++ lit "a" ++ [NL] ++ lit "b" ++ [NL] ++ lit "c" ++ [QUOTE].

Definition world0 : World := {| written := ∅; trace := [] |}.

(** An environment to run the commands in: the manifest lists [a], [b] and
    [c]; the server answers 200 with three chunks, the second empty; the
    executable fails with exit status 1 and prints no caption; every output
    file opens; a script run with an argument exits 0, anything else run
    without a shell exits 3. *)
Definition sample_env : Env := {|
  manifest := Some manifest_abc;
  requests_get := fun _ _ =>
    Return {| status_code := 200;
              iter_content := [[Byte.x52; Byte.x49]; []; [Byte.x46]] |};
  ydl_download := fun _ _ _ => None;
  run_shell := fun _ _ =>
    Return {| returncode := 1; stdout := lit "error: failed to open"; stderr := [] |};
  open_for_writing := fun _ => None;
  run_argv := fun argv _ =>
    match argv with
    | [_; _] => Exited 0
    | _ => Exited 3
    end;
  path_exists := fun _ => false
|}.

(** The same environment with another manifest. *)
Definition with_manifest (env : Env) (text : str) : Env := {|
  manifest := Some text;
  requests_get := requests_get env;
  ydl_download := ydl_download env;
  run_shell := run_shell env;
  open_for_writing := open_for_writing env;
  run_argv := run_argv env;
  path_exists := path_exists env
|}.

(** A second environment, for the paths that fail: the server answers 404,
    yt-dlp fails, no program can be launched without a shell; the executable
    exits 0 and prints two captions around a line of noise; there is no
    directory [nodir]; only the weights of [a] are on disk. *)
Definition offline_env : Env := {|
  manifest := Some manifest_abc;
  requests_get := fun _ _ => Return {| status_code := 404; iter_content := [] |};
  ydl_download := fun _ _ _ => Some DownloadError;
  run_shell := fun _ _ =>
    Return {| returncode := 0; stdout := raw_example; stderr := [] |};
  open_for_writing := fun path =>
    if Str.startswith path (lit "nodir/") then Some (FileNotFoundError path) else None;
  run_argv := fun _ _ => NoSuchProgram;
  path_exists := fun p => bool_decide (p = weights_path (lit "a"))
|}.

(** An environment whose download script cannot be opened. *)
Definition without_manifest (env : Env) : Env := {|
  manifest := None;
  requests_get := requests_get env;
  ydl_download := ydl_download env;
  run_shell := run_shell env;
  open_for_writing := open_for_writing env;
  run_argv := run_argv env;
  path_exists := path_exists env
|}.

(** An environment where a script run with an argument exits 0 and nothing
    else can be launched. *)
Definition without_coreml (env : Env) : Env := {|
  manifest := manifest env;
  requests_get := requests_get env;
  ydl_download := ydl_download env;
  run_shell := run_shell env;
  open_for_writing := open_for_writing env;
  run_argv := fun argv _ =>
    match argv with
    | [_; _] => Exited 0
    | _ => NoSuchProgram
    end;
  path_exists := path_exists env
|}.

(** An environment whose executable prints bytes that are not text. *)
Definition with_binary_output (env : Env) : Env := {|
  manifest := manifest env;
  requests_get := requests_get env;
  ydl_download := ydl_download env;
  run_shell := fun _ _ => Raise UnicodeDecodeError;
  open_for_writing := open_for_writing env;
  run_argv := run_argv env;
  path_exists := path_exists env
|}.

(** The tree of the two scripts as it is on disk: a launch without a shell
    starts a program only when the first argument is the path of the
    download script or of the preparation script, and the script exits 0. *)
Definition real_tree (env : Env) : Env := {|
  manifest := manifest env;
  requests_get := requests_get env;
  ydl_download := ydl_download env;
  run_shell := run_shell env;
  open_for_writing := open_for_writing env;
  run_argv := fun argv _ =>
    match argv with
    | program :: _ =>
        if bool_decide (program = DOWNLOAD_SCRIPT) || bool_decide (program = COREML_SCRIPT)
        then Exited 0 else NoSuchProgram
    | [] => NoSuchProgram
    end;
  path_exists := path_exists env
|}.

(** A caption line as the executable prints it: the two time stamps in
    brackets around the arrow, two spaces, the text. *)
Definition caption_line (start stop text : str) : str :=
  lit "[" ++ start ++ lit " --> " ++ stop ++ lit "]  " ++ text.

(** What [list_models] does for one model: the probe of its weights file and
    the line it prints. *)
Definition listing (env : Env) (model : str) : list event :=
  [Exists (weights_path model);
   Echo Out (if path_exists env (weights_path model) then MsgPresent model
             else MsgMissing model)].

(** The lines printed on the standard stream. *)
Definition is_out_line (e : event) : bool :=
  match e with
  | Echo Out _ => true
  | _ => false
  end.

(** A line of the output of the executable: a caption or anything else. *)
Inductive output_line :=
| Caption (start stop text : str)
| Noise (s : str).

Definition print_line (l : output_line) : str :=
  match l with
  | Caption start stop text => caption_line start stop text
  | Noise s => s
  end.

(** The texts of the captions, in order. *)
Definition captions_of (ls : list output_line) : list str :=
  flat_map (fun l => match l with Caption _ _ text => [text] | Noise _ => [] end) ls.

Definition has (c : char) (s : str) : bool := existsb (N.eqb c) s.

(** A line that fits on one line: no newline in a caption, whose text has no
    closing bracket and no white space at its ends; a noise line with no
    newline that does not look like a caption. *)
Definition well_formed (l : output_line) : bool :=
  match l with
  | Caption start stop text =>
      negb (has NL start) && negb (has NL stop) && negb (has NL text) &&
      negb (has RBRACKET text) && tight text
  | Noise s => negb (has NL s) && negb (is_caption s)
  end.

(** A text of white space only. *)
Abbreviation blank := (Forall (fun c : char => Str.isspace c = true)).

(** ** Proof steps *)

(** A conjunction of tests that holds although one of them is false. *)
Ltac kill_andb H :=
  repeat (apply andb_true_iff in H; destruct H as [_ H]); discriminate H.

(** Run the primitive commands of the monad. *)
Ltac run :=
  unfold echo, open_wb, write_text, write_bytes, log, get_files, put_file,
    raise, after_events, mbind, M_bind, mret, M_ret; cbn [written trace].

(** ** Facts about the string methods *)

Lemma startswith_spec (s p : str) :
  Str.startswith s p = true <-> exists r, s = p ++ r.
Proof.
  revert s; induction p as [|c p IH]; intros [|d s]; simpl.
  - split; eauto.
  - split; eauto.
  - split; [done | intros [r Hr]; done].
  - rewrite andb_true_iff, N.eqb_eq, IH. split.
    + intros [-> [r ->]]. eauto.
    + intros [r Hr]. injection Hr as -> ->. eauto.
Qed.

Lemma contains_unfold (sub s : str) :
  Str.contains sub s =
  Str.startswith s sub || match s with [] => false | _ :: s' => Str.contains sub s' end.
Proof. by destruct s. Qed.

Lemma contains_spec (sub s : str) :
  Str.contains sub s = true <-> exists a b, s = a ++ sub ++ b.
Proof.
  induction s as [|c s IH]; rewrite contains_unfold.
  - rewrite orb_false_r, startswith_spec. split.
    + intros [r Hr]. by exists [], r.
    + intros (a & b & H). destruct a; simpl in H; [eauto | done].
  - rewrite orb_true_iff, startswith_spec, IH. split.
    + intros [[r Hr] | (a & b & ->)]; [by exists [], r | by exists (c :: a), b].
    + intros (a & b & H). destruct a as [|x a]; simpl in H; [left; eauto|].
      injection H as -> ->. right; eauto.
Qed.

Lemma split_cons (sep : char) (s : str) : exists w ws, Str.split sep s = w :: ws.
Proof.
  induction s as [|c s (w & ws & E)]; simpl; [eauto|].
  destruct (N.eqb c sep); [eauto|]. rewrite E. eauto.
Qed.

Lemma join_cons2 (sep x y : str) (l : list str) :
  Str.join sep (x :: y :: l) = x ++ sep ++ Str.join sep (y :: l).
Proof. reflexivity. Qed.

Lemma join_split (sep : char) (s : str) : Str.join [sep] (Str.split sep s) = s.
Proof.
  induction s as [|c s IH]; simpl; [done|].
  destruct (split_cons sep s) as (w & ws & E). rewrite E in *.
  destruct (N.eqb_spec c sep) as [->|_].
  - rewrite join_cons2, IH. done.
  - destruct ws as [|w' ws].
    + simpl in *. by rewrite IH.
    + rewrite join_cons2. rewrite join_cons2 in IH. by rewrite <- IH.
Qed.

Lemma split_no_sep (sep : char) (s : str) :
  Forall (fun w => sep ∉ w) (Str.split sep s).
Proof.
  induction s as [|c s IH]; simpl.
  - constructor; [apply not_elem_of_nil | constructor].
  - destruct (N.eqb_spec c sep) as [->|Hc].
    + constructor; [apply not_elem_of_nil | done].
    + destruct (Str.split sep s) as [|w ws].
      * constructor; [|constructor].
        apply not_elem_of_cons; split; [congruence | apply not_elem_of_nil].
      * inversion IH; subst. constructor; [|done].
        apply not_elem_of_cons; split; [congruence | done].
Qed.

Lemma split_without (sep : char) (s : str) : sep ∉ s -> Str.split sep s = [s].
Proof.
  induction s as [|c s IH]; simpl; [done|].
  intros H. apply not_elem_of_cons in H as [Hc Hs].
  destruct (N.eqb_spec c sep) as [->|_]; [done|]. by rewrite IH.
Qed.

Lemma split_app_sep (sep : char) (a b : str) :
  sep ∉ a -> Str.split sep (a ++ sep :: b) = a :: Str.split sep b.
Proof.
  induction a as [|c a IH]; simpl.
  - by rewrite N.eqb_refl.
  - intros H. apply not_elem_of_cons in H as [Hc Ha].
    destruct (N.eqb_spec c sep) as [->|_]; [done|]. by rewrite IH.
Qed.

Lemma split_join (sep : char) (ws : list str) :
  ws <> [] -> Forall (fun w => sep ∉ w) ws ->
  Str.split sep (Str.join [sep] ws) = ws.
Proof.
  induction ws as [|w ws IH]; [done|]. intros _ H. inversion H as [|? ? Hw Hws]; subst.
  destruct ws as [|w' ws].
  - simpl. by apply split_without.
  - rewrite join_cons2. simpl app. rewrite split_app_sep by done.
    f_equal. by apply IH.
Qed.

Lemma existsb_eqb_true (c : char) (s : str) : existsb (N.eqb c) s = true <-> c ∈ s.
Proof.
  rewrite existsb_exists. split.
  - intros (x & Hin & ->%N.eqb_eq). by apply list_elem_of_In.
  - intros H. exists c. split; [by apply list_elem_of_In | apply N.eqb_refl].
Qed.

Lemma existsb_eqb_false (c : char) (s : str) : existsb (N.eqb c) s = false <-> c ∉ s.
Proof. rewrite <- existsb_eqb_true. by destruct (existsb (N.eqb c) s). Qed.

Lemma split_with (sep : char) (s : str) :
  sep ∈ s -> exists w w' ws, Str.split sep s = w :: w' :: ws.
Proof.
  induction s as [|c s IH]; [by intros ?%elem_of_nil|].
  intros H. simpl. destruct (split_cons sep s) as (w & ws & E).
  destruct (N.eqb_spec c sep) as [->|Hc].
  - rewrite E. eauto.
  - apply elem_of_cons in H as [?|H]; [congruence|].
    destruct (IH H) as (w1 & w2 & ws' & E'). rewrite E'. eauto.
Qed.

(** The last piece of a split is what follows the last separator. *)
Lemma last_piece_split (c : char) (s : str) :
  Str.last_piece (Str.split c s) = after_last c s.
Proof.
  unfold Str.last_piece. induction s as [|d s IH]; [done|].
  cbn [Str.split after_last].
  destruct (existsb (N.eqb c) s) eqn:Hex.
  - apply existsb_eqb_true, split_with in Hex as (w & w' & ws & E).
    rewrite E in *. by destruct (N.eqb d c).
  - apply existsb_eqb_false, split_without in Hex. rewrite Hex.
    by destruct (N.eqb d c).
Qed.

Lemma after_last_without (c : char) (s : str) : c ∉ s -> after_last c s = s.
Proof. intros H. by rewrite <- last_piece_split, split_without. Qed.

Lemma after_last_app (c : char) (p t : str) :
  c ∉ t -> after_last c (p ++ c :: t) = t.
Proof.
  intros Ht. induction p as [|d p IH]; cbn [app after_last].
  - apply existsb_eqb_false in Ht. by rewrite Ht, N.eqb_refl.
  - assert (existsb (N.eqb c) (p ++ c :: t) = true) as ->; [|done].
    apply existsb_eqb_true, elem_of_app. right. by left.
Qed.

(** *** Trimming *)

Lemma lstrip_blank (a s : str) : blank a -> Str.lstrip (a ++ s) = Str.lstrip s.
Proof. induction 1 as [|c a Hc _ IH]; simpl; [done|]. by rewrite Hc. Qed.

Lemma lstrip_decomp (s : str) : exists a, s = a ++ Str.lstrip s /\ blank a.
Proof.
  induction s as [|c s (a & E & Ha)]; simpl; [by exists []|].
  destruct (Str.isspace c) eqn:Hc.
  - exists (c :: a). split; [by rewrite E at 1 | by constructor].
  - by exists [].
Qed.

Lemma lstrip_head (s : str) :
  match Str.lstrip s with [] => True | c :: _ => Str.isspace c = false end.
Proof.
  induction s as [|c s IH]; simpl; [done|].
  by destruct (Str.isspace c) eqn:Hc; [|rewrite Hc].
Qed.

Lemma lstrip_fixed (c : char) (s : str) :
  Str.isspace c = false -> Str.lstrip (c :: s) = c :: s.
Proof. intros H. simpl. by rewrite H. Qed.

Lemma rev_last (t : str) (d : char) :
  t <> [] -> rev t = List.last t d :: rev (removelast t).
Proof.
  intros H. rewrite (app_removelast_last d H) at 1.
  by rewrite rev_app_distr.
Qed.

(** Trimming a tight text wrapped in white space gives the text back. *)
Lemma strip_tight (a t b : str) :
  blank a -> blank b -> tight t = true -> Str.strip (a ++ t ++ b) = t.
Proof.
  intros Ha Hb Ht. unfold Str.strip, Str.rstrip. rewrite lstrip_blank by done.
  destruct t as [|c t].
  - simpl. destruct (lstrip_decomp b) as (a' & E & _).
    assert (Str.lstrip b = []) as ->; [|done].
    clear E. induction Hb as [|x b Hx _ IH]; simpl; [done|]. by rewrite Hx.
  - simpl in Ht. apply andb_true_iff in Ht as [Hc Hl].
    apply negb_true_iff in Hc, Hl.
    change ((c :: t) ++ b) with (c :: (t ++ b)). rewrite lstrip_fixed by done.
    change (c :: (t ++ b)) with ((c :: t) ++ b).
    rewrite rev_app_distr, lstrip_blank by by apply Forall_rev.
    rewrite (rev_last (c :: t) 0%N) by done.
    rewrite lstrip_fixed by done.
    rewrite <- (rev_last (c :: t) 0%N) by done. apply rev_involutive.
Qed.

(** What trimming does: white space taken from both ends, none left there. *)
Lemma strip_spec (s : str) :
  exists a b, s = a ++ Str.strip s ++ b /\ blank a /\ blank b /\
              tight (Str.strip s) = true.
Proof.
  unfold Str.strip, Str.rstrip.
  destruct (lstrip_decomp s) as (a & Es & Ha).
  pose proof (lstrip_head s) as Hhead.
  destruct (lstrip_decomp (rev (Str.lstrip s))) as (b' & Er & Hb').
  pose proof (lstrip_head (rev (Str.lstrip s))) as Hlast.
  set (s1 := Str.lstrip s) in *. set (r := Str.lstrip (rev s1)) in *.
  assert (s1 = rev r ++ rev b') as E1.
  { rewrite <- rev_app_distr, <- Er. by rewrite rev_involutive. }
  exists a, (rev b'). split; [by rewrite <- E1|].
  split; [done|]. split; [by apply Forall_rev|].
  destruct r as [|x r]; [done|].
  cbn [rev] in *. destruct (rev r ++ [x]) as [|c u] eqn:Eu.
  { by destruct (rev r). }
  rewrite E1 in Hhead. simpl in Hhead. unfold tight. rewrite Hhead.
  rewrite <- Eu. by rewrite last_last, Hlast.
Qed.

(** *** The loop of the extraction *)

Lemma extract_loop (lines acc : list str) :
  fold_left extract_step lines acc =
  acc ++ map caption_text (filter (fun line => Is_true (is_caption line)) lines).
Proof.
  revert acc. induction lines as [|l lines IH]; intros acc; simpl.
  - by rewrite app_nil_r.
  - rewrite IH. unfold extract_step. rewrite filter_cons.
    destruct (is_caption l); simpl.
    + by rewrite <- app_assoc.
    + done.
Qed.

(** *** Searching and slicing *)

Lemma MARKER_chars : MARKER = [109; 111; 100; 101; 108; 115; 61; 34]%N.
Proof. reflexivity. Qed.

Lemma find_from_unfold (sub s : str) (i : Z) :
  Str.find_from sub s i =
  if Str.startswith s sub then i
  else match s with [] => -1 | _ :: s' => Str.find_from sub s' (i + 1) end.
Proof. by destruct s. Qed.

(** No occurrence of the marker starts before the marker and runs into it:
    the marker has [m] in its first place only. *)
Lemma marker_no_overlap (x rest : str) :
  x <> [] -> Str.startswith (x ++ MARKER ++ rest) MARKER = true ->
  Str.startswith x MARKER = true.
Proof.
  rewrite MARKER_chars. intros Hx H.
  destruct x as [|x0 x]; [done|].
  do 7 (destruct x as [|? x]; [simpl in H; kill_andb H|]).
  cbn [Str.startswith app] in *. done.
Qed.

Lemma find_from_marker (before rest : str) (i : Z) :
  Str.contains MARKER before = false ->
  Str.find_from MARKER (before ++ MARKER ++ rest) i = i + Z.of_nat (length before).
Proof.
  revert i. induction before as [|c before IH]; intros i H.
  - rewrite find_from_unfold.
    assert (Str.startswith ([] ++ MARKER ++ rest) MARKER = true) as ->.
    { apply startswith_spec. by exists rest. }
    simpl. lia.
  - rewrite contains_unfold in H. apply orb_false_iff in H as [H1 H2].
    rewrite find_from_unfold.
    destruct (Str.startswith ((c :: before) ++ MARKER ++ rest) MARKER) eqn:E.
    + apply marker_no_overlap in E; [congruence | done].
    + cbn [app]. rewrite IH by done. cbn [length]. lia.
Qed.

Lemma find_from_char (c : char) (field rest : str) (i : Z) :
  c ∉ field ->
  Str.find_from [c] (field ++ c :: rest) i = i + Z.of_nat (length field).
Proof.
  revert i. induction field as [|d field IH]; intros i H.
  - simpl. rewrite N.eqb_refl. simpl. lia.
  - apply not_elem_of_cons in H as [Hd H].
    cbn [app Str.find_from Str.startswith].
    destruct (N.eqb_spec c d) as [->|_]; [done|].
    cbn [andb]. rewrite IH by done. cbn [length]. lia.
Qed.

Lemma find_after (a b sub : str) :
  Str.find (a ++ b) sub (Z.of_nat (length a)) =
  Str.find_from sub b (Z.of_nat (length a)).
Proof.
  unfold Str.find. rewrite length_app.
  destruct (Z.ltb_spec (Z.of_nat (length a + length b)) (Z.of_nat (length a))); [lia|].
  by rewrite Nat2Z.id, drop_app_length.
Qed.

Lemma find_zero (s sub : str) : Str.find s sub 0 = Str.find_from sub s 0.
Proof.
  unfold Str.find. by destruct (Z.ltb_spec (Z.of_nat (length s)) 0); [lia|].
Qed.

Lemma slice_middle (a m b : str) :
  Str.slice (a ++ m ++ b) (Z.of_nat (length a)) (Z.of_nat (length a) + Z.of_nat (length m)) = m.
Proof.
  unfold Str.slice, Str.clamp. rewrite !length_app.
  destruct (Z.ltb_spec (Z.of_nat (length a)) 0); [lia|].
  destruct (Z.ltb_spec (Z.of_nat (length a) + Z.of_nat (length m)) 0); [lia|].
  rewrite !Z.min_l by lia.
  rewrite Nat2Z.id, drop_app_length.
  replace (Z.to_nat _) with (length m) by lia.
  by rewrite take_app_length.
Qed.

(** *** Lists of identifiers *)

Lemma identifier_chars (s : str) :
  is_identifier s = true ->
  s <> [] /\ Forall (fun c => Str.isspace c = false /\ c <> QUOTE) s.
Proof.
  destruct s as [|c s]; [done|]. unfold is_identifier.
  intros H. split; [done|]. apply Forall_forall. intros x Hx.
  rewrite forallb_forall in H. apply list_elem_of_In in Hx. specialize (H x Hx).
  apply andb_true_iff in H as [H1 H2].
  apply negb_true_iff in H1, H2. split; [done|]. by apply N.eqb_neq.
Qed.

Lemma identifier_tight (s : str) : is_identifier s = true -> tight s = true.
Proof.
  intros [Hne Hall]%identifier_chars. destruct s as [|c s]; [done|].
  unfold tight. rewrite Forall_forall in Hall.
  destruct (Hall c) as [-> _]; [by left|].
  destruct (Hall (List.last (c :: s) 0%N)) as [-> _]; [|done].
  destruct (exists_last Hne) as (u & x & E). rewrite E, last_last.
  apply elem_of_app. right. by left.
Qed.

Lemma join_without (c : char) (ids : list str) :
  c <> NL -> Forall (fun s => c ∉ s) ids -> c ∉ Str.join [NL] ids.
Proof.
  intros Hc. induction 1 as [|s ids Hs _ IH]; [apply not_elem_of_nil|].
  destruct ids as [|s' ids]; [done|]. rewrite join_cons2.
  rewrite !not_elem_of_app. split; [done|]. split; [|done].
  apply not_elem_of_cons. split; [done | apply not_elem_of_nil].
Qed.

Lemma join_tight (ids : list str) :
  ids <> [] -> Forall (fun s => tight s = true /\ s <> []) ids ->
  tight (Str.join [NL] ids) = true.
Proof.
  assert (Hend : forall (s t : str), s <> [] -> t <> [] ->
            tight s = true -> tight t = true -> tight (s ++ [NL] ++ t) = true).
  { intros [|c s] t Hs Ht H1 H2; [done|].
    unfold tight in *. cbn [app].
    apply andb_true_iff in H1 as [-> _]. cbn [andb].
    destruct t as [|d t]; [done|]. apply andb_true_iff in H2 as [_ H2].
    change (c :: s ++ [NL] ++ d :: t) with ((c :: s ++ [NL]) ++ d :: t).
    destruct (exists_last Ht) as (u & x & E). rewrite E in *.
    rewrite last_last in H2.
    replace (c :: s ++ NL :: u ++ [x]) with ((c :: s ++ NL :: u) ++ [x])
      by (simpl; by rewrite <- app_assoc).
    by rewrite last_last. }
  induction ids as [|s ids IH]; [done|]. intros _ H.
  inversion H as [|? ? [Hs Hne] Hids]; subst.
  destruct ids as [|s' ids]; [done|]. rewrite join_cons2.
  apply Hend; try done.
  - inversion Hids as [|? ? [_ Hne'] _]; subst. destruct ids; [done|].
    rewrite join_cons2. by destruct s'.
  - by apply IH.
Qed.

Lemma models_of_manifest_abc :
  models_of_manifest manifest_abc = [lit "a"; lit "b"; lit "c"].
Proof. reflexivity. Qed.

(** ** Running the commands *)

Lemma get_models_ok (env : Env) (content : str) (w : World) :
  manifest env = Some content ->
  _get_whisper_models env w =
  (Return (models_of_manifest content), after_events w [ReadManifest]).
Proof. intros H. unfold _get_whisper_models. rewrite H. by run. Qed.

Lemma get_models_missing (env : Env) (w : World) :
  manifest env = None ->
  _get_whisper_models env w =
  (Raise (FileNotFoundError MANIFEST_PATH), after_events w [ReadManifest]).
Proof. intros H. unfold _get_whisper_models. rewrite H. by run. Qed.

(** The first conditional of [transcribe] is the classification. *)
Lemma transcribe_by_mode (env : Env) (model : str) (file_path url : option str) :
  transcribe env model file_path url =
  match determine_mode file_path url with
  | NOT_DETERMINED => echo Err MsgInputRequired
  | _mode => transcribe_in_mode env _mode model file_path url
  end.
Proof.
  unfold transcribe, determine_mode.
  destruct (truthy file_path); [done|].
  destruct (truthy url); [|done]. by destruct (is_youtube (the url)).
Qed.

(** With no input the command only echoes. *)
Lemma transcribe_no_input (env : Env) (model : str) (file_path url : option str) (w : World) :
  truthy file_path = false -> truthy url = false ->
  transcribe env model file_path url w =
  (Return tt, after_events w [Echo Err MsgInputRequired]).
Proof. intros H1 H2. unfold transcribe. rewrite H1, H2. by run. Qed.

(** With an unknown model a determined mode only reads the manifest and
    echoes. *)
Lemma transcribe_in_mode_unknown (env : Env) (_mode : TranscriptionMode)
    (model : str) (file_path url : option str) (content : str) (w : World) :
  manifest env = Some content -> model ∉ models_of_manifest content ->
  transcribe_in_mode env _mode model file_path url w =
  (Return tt, after_events w
     [ReadManifest; Echo Err (MsgModelNotFound (models_of_manifest content))]).
Proof.
  intros Hm Hnot. unfold transcribe_in_mode. unfold mbind at 1, M_bind at 1.
  rewrite (get_models_ok _ _ _ Hm). rewrite bool_decide_eq_false_2 by done.
  run. by rewrite <- app_assoc.
Qed.

(** From the launch of the executable on: the call returns and the output
    file opens. *)
Lemma run_and_save_ok (env : Env) (model audio_path : str) (result : CompletedProcess)
    (w : World) :
  let cmd := whisper_command model audio_path in
  let out := audio_path ++ lit ".txt" in
  let text := transcription (stdout result) in
  run_shell env cmd (written w) = Return result ->
  open_for_writing env out = None ->
  run_and_save env model audio_path w =
  (Return tt,
   {| written := <[out := Text text]> (written w);
      trace := trace w ++ [RunShell cmd; OpenWrite out; Write out (Text text);
                           Echo Out (MsgSaved out)] |}).
Proof.
  intros cmd out text Hrun Hopen. unfold run_and_save, open_w. run.
  subst cmd out. rewrite Hrun. cbn [written trace]. rewrite Hopen. cbn [written trace].
  rewrite lookup_insert_eq. cbn [text_of app].
  rewrite insert_insert_eq. by rewrite <- !app_assoc.
Qed.

(** The call of the executable raises: nothing is opened. *)
Lemma run_and_save_not_run (env : Env) (model audio_path : str) (e : exn) (w : World) :
  run_shell env (whisper_command model audio_path) (written w) = Raise e ->
  run_and_save env model audio_path w =
  (Raise e, after_events w [RunShell (whisper_command model audio_path)]).
Proof. intros Hrun. unfold run_and_save. run. by rewrite Hrun. Qed.

(** The output file does not open: nothing is written, nothing reported. *)
Lemma run_and_save_not_opened (env : Env) (model audio_path : str)
    (result : CompletedProcess) (e : exn) (w : World) :
  run_shell env (whisper_command model audio_path) (written w) = Return result ->
  open_for_writing env (audio_path ++ lit ".txt") = Some e ->
  run_and_save env model audio_path w =
  (Raise e, after_events w [RunShell (whisper_command model audio_path);
                            OpenWrite (audio_path ++ lit ".txt")]).
Proof.
  intros Hrun Hopen. unfold run_and_save, open_w. run.
  rewrite Hrun. cbn [written trace]. rewrite Hopen. by rewrite <- !app_assoc.
Qed.


(** ** The properties *)

(** C1, as the specification words it, fails: it sends every supplied URL
    that is not a YouTube one to the direct-URL mode, but an empty URL with no
    file path is a supplied URL and leaves the mode not determined. *)
Lemma empty_url_is_not_direct :
  determine_mode None (Some []) = NOT_DETERMINED /\
  mode_as_specified None (Some []) = URL /\
  determine_mode None (Some []) <> mode_as_specified None (Some []).
Proof. repeat split. discriminate. Qed.

(** C1, amended: the mode [transcribe] works in is a function of the two
    optional inputs alone.  A non-empty file path selects FILE, whatever the
    URL; with no file path (absent or empty), a URL that starts with
    [https://www.youtube.com/watch?v=] or [https://youtu.be/] selects YOUTUBE
    and any other non-empty URL selects URL; with neither a non-empty file
    path nor a non-empty URL the mode stays NOT_DETERMINED, and the command
    only reports the input error. *)
Theorem mode_classification (file_path url : option str) :
  (forall env model,
     transcribe env model file_path url =
     match determine_mode file_path url with
     | NOT_DETERMINED => echo Err MsgInputRequired
     | _mode => transcribe_in_mode env _mode model file_path url
     end) /\
  (forall p, file_path = Some p -> p <> [] -> determine_mode file_path url = FILE) /\
  (forall u, not_given file_path -> url = Some u ->
     (exists r, u = lit "https://www.youtube.com/watch?v=" ++ r) \/
     (exists r, u = lit "https://youtu.be/" ++ r) ->
     determine_mode file_path url = YOUTUBE) /\
  (forall u, not_given file_path -> url = Some u -> u <> [] ->
     ~ (exists r, u = lit "https://www.youtube.com/watch?v=" ++ r) ->
     ~ (exists r, u = lit "https://youtu.be/" ++ r) ->
     determine_mode file_path url = URL) /\
  (not_given file_path -> not_given url ->
     determine_mode file_path url = NOT_DETERMINED).
Proof.
  assert (Hfalse : forall x, not_given x -> truthy x = false) by (by intros x [-> | ->]).
  assert (Htrue : forall x u, x = Some u -> u <> [] -> truthy x = true).
  { intros x [|c u] -> H; done. }
  split; [intros; apply transcribe_by_mode|].
  unfold determine_mode, is_youtube.
  split; [intros p Hp Hne; by rewrite (Htrue _ _ Hp Hne)|].
  split.
  { intros u Hf -> Hyt. rewrite (Hfalse _ Hf). change (the (Some u)) with u.
    assert (u <> []) as Hne by (by destruct Hyt as [[r ->] | [r ->]]).
    rewrite (Htrue (Some u) u eq_refl Hne).
    destruct Hyt as [Hyt | Hyt]; apply startswith_spec in Hyt; rewrite Hyt;
      by rewrite ?orb_true_r. }
  split.
  { intros u Hf -> Hne H1 H2. rewrite (Hfalse _ Hf), (Htrue (Some u) u eq_refl Hne).
    change (the (Some u)) with u. rewrite <- startswith_spec in H1, H2.
    apply not_true_is_false in H1, H2. by rewrite H1, H2. }
  intros Hf Hu. by rewrite (Hfalse _ Hf), (Hfalse _ Hu).
Qed.

Lemma mode_classification_witness :
  determine_mode (Some (lit "sample.wav")) (Some (lit "https://youtu.be/x")) = FILE.
Proof.
  apply (proj1 (proj2 (mode_classification (Some (lit "sample.wav"))
                         (Some (lit "https://youtu.be/x")))) (lit "sample.wav")).
  - reflexivity.
  - discriminate.
Defined.

Lemma is_caption_spec (line : str) :
  is_caption line = true <->
  (exists t, line = lit "[" ++ t) /\ (exists a b, line = a ++ lit "-->" ++ b).
Proof.
  unfold is_caption. by rewrite andb_true_iff, startswith_spec, contains_spec.
Qed.

(** C2: for every raw output, the transcript the loop builds is the one the
    specification describes: the raw output split into its lines (joining
    them with newlines gives the raw output back, and no line holds a
    newline), exactly the lines kept that begin with an opening bracket and
    contain the arrow, each mapped to the text after its last closing bracket
    with the white space at both ends removed, the results joined with single
    newlines.  The sample of the specification yields its two captions.  The
    extraction is a function of the raw output, hence deterministic. *)
Theorem extraction_as_specified (raw : str) :
  transcription raw = extract_as_specified raw /\
  Str.join [NL] (Str.split NL raw) = raw /\
  Forall (fun line => NL ∉ line) (Str.split NL raw) /\
  (forall line, is_caption line = true <->
     (exists t, line = lit "[" ++ t) /\ (exists a b, line = a ++ lit "-->" ++ b)) /\
  (forall p t, RBRACKET ∉ t -> after_last RBRACKET (p ++ RBRACKET :: t) = t) /\
  (forall s, exists a b, s = a ++ Str.strip s ++ b /\ blank a /\ blank b /\
                         tight (Str.strip s) = true) /\
  transcription raw_example = lit "hello world" ++ [NL] ++ lit "second line".
Proof.
  split.
  { unfold transcription, transcription_lines, extract_as_specified.
    rewrite extract_loop. cbn [app]. f_equal. apply map_ext.
    intros line. unfold caption_text. by rewrite last_piece_split. }
  split; [apply join_split|].
  split; [apply split_no_sep|].
  split; [apply is_caption_spec|].
  split; [intros p t; apply after_last_app|].
  split; [apply strip_spec|].
  vm_compute. reflexivity.
Qed.

(** C10: a line that begins with an opening bracket and contains the arrow
    but has no closing bracket is not dropped: the loop emits the whole line,
    trimmed, in its place among the transcript lines. *)
Theorem caption_without_closing_bracket (raw line : str) (before after : list str) :
  Str.split NL raw = before ++ line :: after ->
  Str.startswith line (lit "[") = true ->
  Str.contains (lit "-->") line = true ->
  RBRACKET ∉ line ->
  caption_text line = Str.strip line /\
  transcription_lines raw =
  fold_left extract_step before [] ++ Str.strip line :: fold_left extract_step after [].
Proof.
  intros Hsplit Hstart Hin Hno.
  assert (caption_text line = Str.strip line) as Htext.
  { unfold caption_text. by rewrite split_without. }
  split; [done|].
  unfold transcription_lines. rewrite Hsplit, !extract_loop. cbn [app].
  rewrite filter_app, filter_cons_True, map_app.
  - cbn [map]. by rewrite Htext.
  - unfold is_caption. by rewrite Hstart, Hin.
Qed.

Lemma caption_without_closing_bracket_witness :
  caption_text (lit "[00:01 --> 00:02  hello ") = lit "[00:01 --> 00:02  hello" /\
  transcription_lines (lit "[00:01 --> 00:02  hello ") = [lit "[00:01 --> 00:02  hello"].
Proof.
  apply (caption_without_closing_bracket
           (lit "[00:01 --> 00:02  hello ") (lit "[00:01 --> 00:02  hello ") [] []).
  - reflexivity.
  - reflexivity.
  - reflexivity.
  - apply existsb_eqb_false. reflexivity.
Defined.

Lemma find_from_absent (sub s : str) (i : Z) :
  Str.contains sub s = false -> Str.find_from sub s i = -1.
Proof.
  revert i. induction s as [|c s IH]; intros i H;
    rewrite contains_unfold in H; apply orb_false_iff in H as [H1 H2];
    rewrite find_from_unfold, H1; [done | by apply IH].
Qed.

(** C3 fails on the code: for a manifest without the marker nothing is
    raised.  The search answers -1, the start becomes 7, and the function
    returns the lines of whatever lies between the eighth character and the
    next double quote. *)
Theorem get_whisper_models_without_marker (env : Env) (content : str) (w : World) :
  manifest env = Some content ->
  Str.contains MARKER content = false ->
  _get_whisper_models env w =
  (Return (Str.split NL (Str.strip
             (Str.slice content 7 (Str.find content [QUOTE] 7)))),
   after_events w [ReadManifest]).
Proof.
  intros Hm Hno. rewrite (get_models_ok _ _ _ Hm). do 2 f_equal.
  unfold models_of_manifest.
  assert (Str.find content MARKER 0 = -1) as ->; [|done].
  rewrite find_zero. by apply find_from_absent.
Qed.

Lemma get_whisper_models_without_marker_witness :
  _get_whisper_models (with_manifest sample_env manifest_without_marker) world0 =
  (Return [lit "sh"; lit "echo"], after_events world0 [ReadManifest]).
Proof.
  apply (get_whisper_models_without_marker
           (with_manifest sample_env manifest_without_marker)
           manifest_without_marker world0).
  - reflexivity.
  - reflexivity.
Defined.

(** C9, as the specification words it, fails on the empty list: a manifest
    whose field holds no identifier at all does not list no model, it lists
    one model with the empty name. *)
Lemma empty_list_not_round_trip :
  (manifest_with [] [] [] = MARKER ++ [QUOTE]) /\
  (models_of_manifest (manifest_with [] [] []) = [[]]) /\
  (models_of_manifest (manifest_with [] [] []) <> []).
Proof. repeat split. discriminate. Qed.

(** C9, amended: reading a manifest gives back the list it holds, when the
    list is not empty.  For a manifest whose first marker is followed by a
    non-empty list of identifiers (none empty, none with white space or a
    double quote) separated by newlines and closed by a double quote, the
    models listed are exactly those identifiers, in order. *)
Theorem manifest_round_trip (before after : str) (ids : list str) :
  ids <> [] ->
  forallb is_identifier ids = true ->
  Str.contains MARKER before = false ->
  models_of_manifest (manifest_with before ids after) = ids.
Proof.
  intros Hne Hids Hbefore. rewrite forallb_forall in Hids.
  assert (Hall : Forall (fun s => is_identifier s = true) ids).
  { apply Forall_forall. intros s Hs. by apply Hids, list_elem_of_In. }
  clear Hids.
  assert (Hquote : QUOTE ∉ Str.join [NL] ids).
  { apply join_without; [done|]. eapply Forall_impl; [exact Hall|].
    intros s [_ Hs]%identifier_chars Hin. rewrite Forall_forall in Hs.
    by destruct (Hs _ Hin). }
  assert (Hnl : Forall (fun s => NL ∉ s) ids).
  { eapply Forall_impl; [exact Hall|].
    intros s [_ Hs]%identifier_chars Hin. rewrite Forall_forall in Hs.
    by destruct (Hs _ Hin). }
  assert (Htight : tight (Str.join [NL] ids) = true).
  { apply join_tight; [done|]. eapply Forall_impl; [exact Hall|].
    intros s Hs. split; [by apply identifier_tight | by apply identifier_chars]. }
  unfold models_of_manifest, manifest_with.
  set (field := Str.join [NL] ids) in *.
  assert (Str.find (before ++ MARKER ++ field ++ QUOTE :: after) MARKER 0
          = Z.of_nat (length before)) as ->.
  { rewrite find_zero. by rewrite find_from_marker. }
  assert (Z.of_nat (length before) + 8 = Z.of_nat (length (before ++ MARKER))) as ->.
  { rewrite length_app. change (length MARKER) with 8%nat. lia. }
  rewrite (app_assoc before MARKER).
  rewrite find_after, find_from_char by done.
  rewrite slice_middle.
  assert (Str.strip ([] ++ field ++ []) = field) as Hstrip
    by (apply strip_tight; [constructor | constructor | done]).
  cbn [app] in Hstrip. rewrite app_nil_r in Hstrip. rewrite Hstrip.
  by apply split_join.
Qed.

Lemma manifest_round_trip_witness :
  models_of_manifest manifest_abc = [lit "a"; lit "b"; lit "c"].
Proof.
  apply (manifest_round_trip [] [] [lit "a"; lit "b"; lit "c"]).
  - discriminate.
  - reflexivity.
  - reflexivity.
Defined.

Lemma transcription_no_caption (out : str) :
  Forall (fun line => is_caption line = false) (Str.split NL out) ->
  transcription out = [].
Proof.
  intros H. unfold transcription, transcription_lines. rewrite extract_loop.
  cbn [app]. induction H as [|line lines Hl _ IH]; [done|].
  by rewrite filter_cons_False by (rewrite Hl; intros []).
Qed.

(** C4, as the specification words it, fails: the executable returns a
    result, yet the command raises and writes nothing, because the output
    file is in a directory that does not exist. *)
Lemma missing_directory_raises :
  (run_shell offline_env (whisper_command (lit "a") (lit "nodir/talk.wav")) ∅ =
     Return {| returncode := 0; stdout := raw_example; stderr := [] |}) /\
  (transcribe offline_env (lit "a") (Some (lit "nodir/talk.wav")) None world0 =
   (Raise (FileNotFoundError (lit "nodir/talk.wav.txt")),
    after_events world0
      [ReadManifest; RunShell (whisper_command (lit "a") (lit "nodir/talk.wav"));
       OpenWrite (lit "nodir/talk.wav.txt")])) /\
  (fst (transcribe offline_env (lit "a") (Some (lit "nodir/talk.wav")) None world0)
     <> Return tt).
Proof.
  assert (transcribe offline_env (lit "a") (Some (lit "nodir/talk.wav")) None world0 =
          (Raise (FileNotFoundError (lit "nodir/talk.wav.txt")),
           after_events world0
             [ReadManifest; RunShell (whisper_command (lit "a") (lit "nodir/talk.wav"));
              OpenWrite (lit "nodir/talk.wav.txt")])) as H
    by (vm_compute; reflexivity).
  split; [reflexivity|]. split; [exact H|]. rewrite H. discriminate.
Qed.

(** C4, amended: the exit status of the executable plays no part.  Once the
    mode is determined, the model known and the audio acquired: whenever the
    call of the executable returns a result, whatever its exit status and its
    output, and the output file opens, the command raises nothing, writes the
    extracted transcript to the audio path followed by [.txt] and reports
    that path; the transcript is empty when no line of the output has the
    caption shape.  An exception of the call itself or of the opening of the
    output file is not caught: it leaves the command and no transcript is
    written. *)
Theorem exit_status_not_inspected (env : Env) (model : str)
    (file_path url : option str) (content audio_path : str) (w w1 : World) :
  manifest env = Some content ->
  model ∈ models_of_manifest content ->
  determine_mode file_path url <> NOT_DETERMINED ->
  acquire env (determine_mode file_path url) file_path url
    (after_events w [ReadManifest]) = (Return audio_path, w1) ->
  let cmd := whisper_command model audio_path in
  let txt := audio_path ++ lit ".txt" in
  (forall rc out err,
     run_shell env cmd (written w1) =
       Return {| returncode := rc; stdout := out; stderr := err |} ->
     open_for_writing env txt = None ->
     transcribe env model file_path url w =
     (Return tt,
      {| written := <[txt := Text (transcription out)]> (written w1);
         trace := trace w1 ++
           [RunShell cmd; OpenWrite txt; Write txt (Text (transcription out));
            Echo Out (MsgSaved txt)] |}) /\
     (Forall (fun line => is_caption line = false) (Str.split NL out) ->
      transcription out = [])) /\
  (forall result e,
     run_shell env cmd (written w1) = Return result ->
     open_for_writing env txt = Some e ->
     transcribe env model file_path url w =
     (Raise e, after_events w1 [RunShell cmd; OpenWrite txt])) /\
  (forall e,
     run_shell env cmd (written w1) = Raise e ->
     transcribe env model file_path url w =
     (Raise e, after_events w1 [RunShell cmd])).
Proof.
  intros Hm Hin Hmode Hacq cmd txt.
  assert (transcribe env model file_path url w = run_and_save env model audio_path w1)
    as ->.
  { rewrite transcribe_by_mode.
    assert (transcribe_in_mode env (determine_mode file_path url) model file_path url w =
            run_and_save env model audio_path w1) as Hbody.
    { unfold transcribe_in_mode. unfold mbind at 1, M_bind at 1.
      rewrite (get_models_ok _ _ _ Hm). rewrite bool_decide_eq_true_2 by done.
      unfold mbind, M_bind. by rewrite Hacq. }
    by destruct (determine_mode file_path url). }
  split; [|split].
  - intros rc out err Hrun Hopen. split; [|apply transcription_no_caption].
    by rewrite (run_and_save_ok env model audio_path _ w1 Hrun Hopen).
  - intros result e Hrun Hopen. by apply (run_and_save_not_opened env _ _ result).
  - intros e Hrun. by apply run_and_save_not_run.
Qed.

Lemma exit_status_not_inspected_witness :
  transcribe sample_env (lit "a") (Some (lit "sample.wav")) None world0 =
  (Return tt,
   {| written := <[lit "sample.wav.txt" := Text []]> ∅;
      trace := [ReadManifest;
                RunShell (whisper_command (lit "a") (lit "sample.wav"));
                OpenWrite (lit "sample.wav.txt");
                Write (lit "sample.wav.txt") (Text []);
                Echo Out (MsgSaved (lit "sample.wav.txt"))] |}).
Proof.
  apply (proj1 (exit_status_not_inspected sample_env (lit "a") (Some (lit "sample.wav"))
                  None manifest_abc (lit "sample.wav") world0
                  (after_events world0 [ReadManifest])
                  eq_refl ltac:(rewrite models_of_manifest_abc; by left)
                  ltac:(discriminate) eq_refl)
           1 (lit "error: failed to open") []).
  - reflexivity.
  - reflexivity.
Defined.



(** C6: with a model that the catalog does not list, the command reports an
    error on the error stream and returns: the events are the input error
    alone (no input given) or the reading of the manifest and the
    model-not-found error; no acquisition, no launch, no file opened or
    written, and the files are as before. *)
Theorem unknown_model_no_side_effect (env : Env) (model : str)
    (file_path url : option str) (content : str) (w : World) :
  manifest env = Some content ->
  model ∉ models_of_manifest content ->
  let events :=
    match determine_mode file_path url with
    | NOT_DETERMINED => [Echo Err MsgInputRequired]
    | _ => [ReadManifest; Echo Err (MsgModelNotFound (models_of_manifest content))]
    end in
  transcribe env model file_path url w = (Return tt, after_events w events) /\
  written (after_events w events) = written w /\
  existsb is_side_effect events = false /\
  exists m, last events = Some (Echo Err m).
Proof.
  intros Hm Hnot events. subst events. rewrite transcribe_by_mode.
  destruct (determine_mode file_path url);
    try rewrite (transcribe_in_mode_unknown _ _ _ _ _ _ _ Hm Hnot);
    (split; [done|]); (split; [done|]); (split; [done|]); eauto.
Qed.

Lemma unknown_model_no_side_effect_witness :
  transcribe sample_env (lit "huge") (Some (lit "sample.wav")) None world0 =
  (Return tt,
   after_events world0
     [ReadManifest; Echo Err (MsgModelNotFound [lit "a"; lit "b"; lit "c"])]).
Proof.
  apply (unknown_model_no_side_effect sample_env (lit "huge") (Some (lit "sample.wav"))
           None manifest_abc world0).
  - reflexivity.
  - rewrite models_of_manifest_abc. intros H.
    repeat (apply elem_of_cons in H as [H|H]; [discriminate H|]).
    by apply elem_of_nil in H.
Defined.

(** C7: with neither a file path nor a URL the command reports the input
    error and returns; that echo is its only event: the manifest is not even
    read, nothing is acquired, launched or written. *)
Theorem no_input_no_side_effect (env : Env) (model : str) (w : World) :
  transcribe env model None None w =
    (Return tt, after_events w [Echo Err MsgInputRequired]) /\
  written (after_events w [Echo Err MsgInputRequired]) = written w /\
  existsb is_side_effect [Echo Err MsgInputRequired] = false.
Proof. split; [by apply transcribe_no_input | done]. Qed.

Lemma run_checked_exited (env : Env) (argv : list str) (rc : Z) (w : World) :
  run_argv env argv (written w) = Exited rc ->
  run_checked env argv w =
  (if rc =? 0 then Return rc else Raise (CalledProcessError rc),
   after_events w [RunArgv argv]).
Proof.
  intros H. unfold run_checked. run. rewrite H. by destruct (rc =? 0).
Qed.

Lemma run_checked_not_launched (env : Env) (argv : list str) (w : World) :
  run_argv env argv (written w) = NoSuchProgram ->
  run_checked env argv w =
  (Raise (FileNotFoundError (the (head argv))), after_events w [RunArgv argv]).
Proof. intros H. unfold run_checked. run. by rewrite H. Qed.

(** [download_model] with a known model, by what the two launches give. *)
Lemma download_model_cases (env : Env) (model content : str) (w : World) :
  manifest env = Some content ->
  model ∈ models_of_manifest content ->
  download_model env model w =
  match run_argv env [DOWNLOAD_SCRIPT; model] (written w) with
  | NoSuchProgram =>
      (Raise (FileNotFoundError DOWNLOAD_SCRIPT),
       after_events w [ReadManifest; RunArgv [DOWNLOAD_SCRIPT; model]])
  | Exited 0 =>
      match run_argv env (coreml_argv model) (written w) with
      | NoSuchProgram =>
          (Raise (FileNotFoundError (COREML_SCRIPT ++ lit " " ++ model)),
           after_events w [ReadManifest; RunArgv [DOWNLOAD_SCRIPT; model];
                           Echo Out (MsgDownloaded model); RunArgv (coreml_argv model)])
      | Exited 0 =>
          (Return tt,
           after_events w [ReadManifest; RunArgv [DOWNLOAD_SCRIPT; model];
                           Echo Out (MsgDownloaded model); RunArgv (coreml_argv model);
                           Echo Out MsgCoreMLDone])
      | Exited rc =>
          (Return tt,
           after_events w [ReadManifest; RunArgv [DOWNLOAD_SCRIPT; model];
                           Echo Out (MsgDownloaded model); RunArgv (coreml_argv model);
                           Echo Err (MsgCommandFailed rc)])
      end
  | Exited rc =>
      (Return tt,
       after_events w [ReadManifest; RunArgv [DOWNLOAD_SCRIPT; model];
                       Echo Err (MsgCommandFailed rc)])
  end.
Proof.
  intros Hm Hin. unfold download_model. unfold mbind at 1, M_bind at 1.
  rewrite (get_models_ok _ _ _ Hm). rewrite bool_decide_eq_true_2 by done.
  unfold try_except_CalledProcessError. unfold mbind at 1, M_bind at 1.
  destruct (run_argv env [DOWNLOAD_SCRIPT; model] (written w)) as [rc|] eqn:Hdl.
  - rewrite (run_checked_exited env _ rc) by done.
    destruct (Z.eqb_spec rc 0) as [->|Hrc].
    + cbn [Z.eqb]. unfold echo, log. unfold mbind at 1, M_bind at 1.
      unfold mbind at 1, M_bind at 1. cbn [written trace after_events].
      destruct (run_argv env (coreml_argv model) (written w)) as [rc'|] eqn:Hcm.
      * rewrite (run_checked_exited env _ rc') by done.
        destruct (Z.eqb_spec rc' 0) as [->|Hrc'].
        -- cbn [Z.eqb]. unfold after_events. cbn [written trace].
           by rewrite <- !app_assoc.
        -- unfold after_events. cbn [written trace]. rewrite <- !app_assoc.
           by destruct rc'.
      * rewrite run_checked_not_launched by done.
        unfold after_events. cbn [written trace]. by rewrite <- !app_assoc.
    + unfold echo, log, after_events. cbn [written trace]. rewrite <- !app_assoc.
      by destruct rc.
  - rewrite run_checked_not_launched by done.
    unfold after_events. cbn [written trace]. by rewrite <- !app_assoc.
Qed.

(** What [download_model] reports with a known model, by what the two
    launches give; the second launch is the one-argument vector of
    [coreml_argv].  A launch that exits non-zero is reported on the error
    stream with its exit status; the success of the download is reported
    before the second launch, which happens only after the download exited
    with status 0. *)
Lemma download_model_reports (env : Env) (model content : str) (w : World) :
  manifest env = Some content ->
  model ∈ models_of_manifest content ->
  let download := [DOWNLOAD_SCRIPT; model] in
  let prepare := coreml_argv model in
  (forall rc, rc <> 0 -> run_argv env download (written w) = Exited rc ->
     download_model env model w =
     (Return tt, after_events w [ReadManifest; RunArgv download;
                                 Echo Err (MsgCommandFailed rc)])) /\
  (forall rc, rc <> 0 -> run_argv env download (written w) = Exited 0 ->
     run_argv env prepare (written w) = Exited rc ->
     download_model env model w =
     (Return tt, after_events w [ReadManifest; RunArgv download;
                                 Echo Out (MsgDownloaded model); RunArgv prepare;
                                 Echo Err (MsgCommandFailed rc)])) /\
  (run_argv env download (written w) = Exited 0 ->
   run_argv env prepare (written w) = Exited 0 ->
   download_model env model w =
   (Return tt, after_events w [ReadManifest; RunArgv download;
                               Echo Out (MsgDownloaded model); RunArgv prepare;
                               Echo Out MsgCoreMLDone])) /\
  (exists events, snd (download_model env model w) = after_events w events /\
     (RunArgv prepare ∈ events ->
      run_argv env download (written w) = Exited 0 /\
      exists rest, events = [ReadManifest; RunArgv download;
                             Echo Out (MsgDownloaded model); RunArgv prepare] ++ rest)).
Proof.
  intros Hm Hin download prepare. subst download prepare.
  pose proof (download_model_cases env model content w Hm Hin) as Hcases.
  assert (Hdiff : forall es, Forall (fun e => e <> RunArgv (coreml_argv model)) es ->
                             RunArgv (coreml_argv model) ∈ es -> False).
  { intros es Hall Hel. rewrite Forall_forall in Hall. by apply (Hall _ Hel). }
  repeat split.
  - intros rc Hrc Hdl. rewrite Hcases, Hdl. by destruct rc.
  - intros rc Hrc Hdl Hcm. rewrite Hcases, Hdl, Hcm. by destruct rc.
  - intros Hdl Hcm. by rewrite Hcases, Hdl, Hcm.
  - rewrite Hcases.
    destruct (run_argv env [DOWNLOAD_SCRIPT; model] (written w)) as [rc|] eqn:Hdl.
    + destruct (Z.eq_dec rc 0) as [->|Hrc].
      * destruct (run_argv env (coreml_argv model) (written w)) as [rc'|];
          [destruct (Z.eq_dec rc' 0) as [->|Hrc']|];
          try (eexists; split; [reflexivity|]; intros _; split; [done|]; eauto).
        exists [ReadManifest; RunArgv [DOWNLOAD_SCRIPT; model];
                Echo Out (MsgDownloaded model); RunArgv (coreml_argv model);
                Echo Err (MsgCommandFailed rc')].
        split; [by destruct rc'|]. intros _. split; [done|]. eauto.
      * exists [ReadManifest; RunArgv [DOWNLOAD_SCRIPT; model];
                Echo Err (MsgCommandFailed rc)].
        split; [by destruct rc|]. intros H. exfalso. revert H. apply Hdiff.
        repeat constructor; discriminate.
    + eexists; split; [reflexivity|]. intros H. exfalso. revert H. apply Hdiff.
      repeat constructor; discriminate.
Qed.

(** ** Further properties of the commands *)

(** A known model and a determined mode: the command is the acquisition
    followed by the launch and the saving. *)
Lemma transcribe_in_mode_known (env : Env) (_mode : TranscriptionMode)
    (model : str) (file_path url : option str) (content : str) (w : World) :
  manifest env = Some content ->
  model ∈ models_of_manifest content ->
  transcribe_in_mode env _mode model file_path url w =
  match acquire env _mode file_path url (after_events w [ReadManifest]) with
  | (Return audio_path, w1) => run_and_save env model audio_path w1
  | (Raise e, w1) => (Raise e, w1)
  end.
Proof.
  intros Hm Hin. unfold transcribe_in_mode. unfold mbind at 1, M_bind at 1.
  rewrite (get_models_ok _ _ _ Hm). rewrite bool_decide_eq_true_2 by done.
  unfold mbind, M_bind.
  by destruct (acquire env _mode file_path url (after_events w [ReadManifest]))
    as [[audio_path|e] w1].
Qed.

Lemma transcribe_in_mode_no_manifest (env : Env) (_mode : TranscriptionMode)
    (model : str) (file_path url : option str) (w : World) :
  manifest env = None ->
  transcribe_in_mode env _mode model file_path url w =
  (Raise (FileNotFoundError MANIFEST_PATH), after_events w [ReadManifest]).
Proof.
  intros Hm. unfold transcribe_in_mode. unfold mbind at 1, M_bind at 1.
  by rewrite (get_models_missing _ _ Hm).
Qed.


Lemma download_url_refused (env : Env) (url filename : str)
    (url_headers : option (list (str * str))) (response : Response) (w : World) :
  requests_get env url (default [] url_headers) = Return response ->
  status_code response <> 200 ->
  _download_file_from_url env url filename url_headers w =
  (Raise (DownloadFailed (status_code response)), after_events w [HttpGet url]).
Proof.
  intros Hget Hst. unfold _download_file_from_url.
  unfold mbind at 1, M_bind at 1. rewrite Hget.
  apply Z.eqb_neq in Hst. rewrite Hst. by run.
Qed.

Lemma download_url_unreachable (env : Env) (url filename : str)
    (url_headers : option (list (str * str))) (e : exn) (w : World) :
  requests_get env url (default [] url_headers) = Raise e ->
  _download_file_from_url env url filename url_headers w =
  (Raise e, after_events w [HttpGet url]).
Proof.
  intros Hget. unfold _download_file_from_url.
  unfold mbind at 1, M_bind at 1. rewrite Hget. by run.
Qed.

Lemma determine_mode_file (p : str) (url : option str) :
  p <> [] -> determine_mode (Some p) url = FILE.
Proof. by destruct p. Qed.

Lemma determine_mode_url (file_path : option str) (u : str) :
  truthy file_path = false -> u <> [] ->
  determine_mode file_path (Some u) = if is_youtube u then YOUTUBE else URL.
Proof. intros Hf Hu. unfold determine_mode. rewrite Hf. by destruct u. Qed.

(** X1: the file path wins in the workflow too.  With a non-empty file path
    and a known model, whatever the URL, nothing is downloaded: the manifest
    is read and the executable is launched on the given path (never checked
    to exist); when that call returns a result and the output file opens, the
    transcript goes to that path followed by [.txt], and the path is
    reported. *)
Theorem transcribe_local_file (env : Env) (model p : str) (url : option str)
    (content : str) (result : CompletedProcess) (w : World) :
  manifest env = Some content ->
  model ∈ models_of_manifest content ->
  p <> [] ->
  run_shell env (whisper_command model p) (written w) = Return result ->
  open_for_writing env (p ++ lit ".txt") = None ->
  let cmd := whisper_command model p in
  let text := transcription (stdout result) in
  transcribe env model (Some p) url w =
  (Return tt,
   {| written := <[p ++ lit ".txt" := Text text]> (written w);
      trace := trace w ++
        [ReadManifest; RunShell cmd; OpenWrite (p ++ lit ".txt");
         Write (p ++ lit ".txt") (Text text); Echo Out (MsgSaved (p ++ lit ".txt"))] |}).
Proof.
  intros Hm Hin Hp Hrun Hopen cmd text.
  rewrite transcribe_by_mode, determine_mode_file by done.
  rewrite (transcribe_in_mode_known _ _ _ _ _ _ _ Hm Hin).
  cbn [acquire]. unfold mret, M_ret.
  rewrite (run_and_save_ok env model p result) by done.
  unfold after_events. cbn [written trace].
  by rewrite <- app_assoc.
Qed.

Lemma transcribe_local_file_witness :
  transcribe offline_env (lit "b") (Some (lit "talk.wav"))
    (Some (lit "https://youtu.be/x")) world0 =
  (Return tt,
   {| written := <[lit "talk.wav.txt" :=
                     Text (lit "hello world" ++ [NL] ++ lit "second line")]> ∅;
      trace := [ReadManifest;
                RunShell (whisper_command (lit "b") (lit "talk.wav"));
                OpenWrite (lit "talk.wav.txt");
                Write (lit "talk.wav.txt")
                  (Text (lit "hello world" ++ [NL] ++ lit "second line"));
                Echo Out (MsgSaved (lit "talk.wav.txt"))] |}).
Proof.
  apply (transcribe_local_file offline_env (lit "b") (lit "talk.wav")
           (Some (lit "https://youtu.be/x")) manifest_abc
           {| returncode := 0; stdout := raw_example; stderr := [] |} world0).
  - reflexivity.
  - rewrite models_of_manifest_abc. right. by left.
  - discriminate.
  - reflexivity.
  - reflexivity.
Defined.

(** X2: a direct URL that is not answered with 200 stops the workflow.  With
    no file path, a known model and a non-empty URL that is not a YouTube
    one, a response with another status makes [transcribe] raise the download
    exception with that status; the executable is not launched and no file is
    written.  An exception of the request itself leaves the command as it
    is. *)
Theorem transcribe_url_refused (env : Env) (model u : str) (file_path : option str)
    (content : str) (w : World) :
  manifest env = Some content ->
  model ∈ models_of_manifest content ->
  truthy file_path = false -> u <> [] -> is_youtube u = false ->
  (forall response, requests_get env u [] = Return response ->
     status_code response <> 200 ->
     transcribe env model file_path (Some u) w =
     (Raise (DownloadFailed (status_code response)),
      after_events w [ReadManifest; HttpGet u])) /\
  (forall e, requests_get env u [] = Raise e ->
     transcribe env model file_path (Some u) w =
     (Raise e, after_events w [ReadManifest; HttpGet u])).
Proof.
  intros Hm Hin Hf Hu Hyt.
  assert (transcribe env model file_path (Some u) w =
          match _download_file_from_url env u (lit "url_audio") None
                  (after_events w [ReadManifest]) with
          | (Return audio_path, w1) => run_and_save env model audio_path w1
          | (Raise e, w1) => (Raise e, w1)
          end) as ->.
  { rewrite transcribe_by_mode, determine_mode_url, Hyt by done.
    by rewrite (transcribe_in_mode_known _ _ _ _ _ _ _ Hm Hin). }
  split.
  - intros response Hget Hst. rewrite (download_url_refused _ _ _ None response) by done.
    unfold after_events. cbn [written trace]. by rewrite <- app_assoc.
  - intros e Hget. rewrite (download_url_unreachable _ _ _ None e) by done.
    unfold after_events. cbn [written trace]. by rewrite <- app_assoc.
Qed.

Lemma transcribe_url_refused_witness :
  transcribe offline_env (lit "a") None (Some (lit "https://example.org/a.wav")) world0 =
  (Raise (DownloadFailed 404),
   after_events world0 [ReadManifest; HttpGet (lit "https://example.org/a.wav")]).
Proof.
  apply (proj1 (transcribe_url_refused offline_env (lit "a")
                  (lit "https://example.org/a.wav") None manifest_abc world0
                  eq_refl ltac:(rewrite models_of_manifest_abc; by left)
                  eq_refl ltac:(discriminate) eq_refl)
           {| status_code := 404; iter_content := [] |}).
  - reflexivity.
  - discriminate.
Defined.



(** X4: a YouTube URL that yt-dlp downloads.  With no file path and a known
    model, yt-dlp is asked for [yt_audio]; when it succeeds the executable
    runs on [yt_audio.wav]; when that call returns a result and
    [yt_audio.wav.txt] opens, the transcript goes there and the path is
    reported. *)
Theorem transcribe_youtube_downloaded (env : Env) (model u : str)
    (file_path : option str) (content : str) (result : CompletedProcess) (w : World) :
  manifest env = Some content ->
  model ∈ models_of_manifest content ->
  truthy file_path = false -> is_youtube u = true ->
  ydl_download env u (lit "yt_audio") (written w) = None ->
  let audio := lit "yt_audio.wav" in
  let cmd := whisper_command model audio in
  let text := transcription (stdout result) in
  run_shell env cmd (written w) = Return result ->
  open_for_writing env (audio ++ lit ".txt") = None ->
  transcribe env model file_path (Some u) w =
  (Return tt,
   {| written := <[audio ++ lit ".txt" := Text text]> (written w);
      trace := trace w ++
        [ReadManifest; YoutubeDL u (lit "yt_audio"); RunShell cmd;
         OpenWrite (audio ++ lit ".txt"); Write (audio ++ lit ".txt") (Text text);
         Echo Out (MsgSaved (audio ++ lit ".txt"))] |}).
Proof.
  intros Hm Hin Hf Hyt Hdl audio cmd text Hrun Hopen.
  assert (u <> []) as Hu by (intros ->; discriminate Hyt).
  rewrite transcribe_by_mode, determine_mode_url, Hyt by done.
  rewrite (transcribe_in_mode_known _ _ _ _ _ _ _ Hm Hin).
  cbn [acquire]. change (the (Some u)) with u.
  unfold _download_file_from_youtube. run. rewrite Hdl.
  rewrite (run_and_save_ok env model audio result) by done.
  cbn [written trace]. by rewrite <- !app_assoc.
Qed.

Lemma transcribe_youtube_downloaded_witness :
  transcribe sample_env (lit "a") None (Some (lit "https://youtu.be/x")) world0 =
  (Return tt,
   {| written := <[lit "yt_audio.wav.txt" := Text []]> ∅;
      trace := [ReadManifest; YoutubeDL (lit "https://youtu.be/x") (lit "yt_audio");
                RunShell (whisper_command (lit "a") (lit "yt_audio.wav"));
                OpenWrite (lit "yt_audio.wav.txt");
                Write (lit "yt_audio.wav.txt") (Text []);
                Echo Out (MsgSaved (lit "yt_audio.wav.txt"))] |}).
Proof.
  apply (transcribe_youtube_downloaded sample_env (lit "a") (lit "https://youtu.be/x")
           None manifest_abc
           {| returncode := 1; stdout := lit "error: failed to open"; stderr := [] |}
           world0).
  - reflexivity.
  - rewrite models_of_manifest_abc. by left.
  - reflexivity.
  - reflexivity.
  - reflexivity.
  - reflexivity.
  - reflexivity.
Defined.

(** X16: a YouTube URL that yt-dlp cannot download.  With no file path and a
    known model, the exception of yt-dlp leaves [transcribe]: the executable
    is not launched and nothing is opened or written. *)
Theorem transcribe_youtube_failed (env : Env) (model u : str) (file_path : option str)
    (content : str) (e : exn) (w : World) :
  manifest env = Some content ->
  model ∈ models_of_manifest content ->
  truthy file_path = false -> is_youtube u = true ->
  ydl_download env u (lit "yt_audio") (written w) = Some e ->
  transcribe env model file_path (Some u) w =
  (Raise e, after_events w [ReadManifest; YoutubeDL u (lit "yt_audio")]).
Proof.
  intros Hm Hin Hf Hyt Hdl.
  assert (u <> []) as Hu by (intros ->; discriminate Hyt).
  rewrite transcribe_by_mode, determine_mode_url, Hyt by done.
  rewrite (transcribe_in_mode_known _ _ _ _ _ _ _ Hm Hin).
  cbn [acquire]. change (the (Some u)) with u.
  unfold _download_file_from_youtube. run. rewrite Hdl. by rewrite <- !app_assoc.
Qed.

Lemma transcribe_youtube_failed_witness :
  transcribe offline_env (lit "a") None (Some (lit "https://youtu.be/x")) world0 =
  (Raise DownloadError,
   after_events world0
     [ReadManifest; YoutubeDL (lit "https://youtu.be/x") (lit "yt_audio")]).
Proof.
  apply (transcribe_youtube_failed offline_env (lit "a") (lit "https://youtu.be/x")
           None manifest_abc DownloadError world0).
  - reflexivity.
  - rewrite models_of_manifest_abc. by left.
  - reflexivity.
  - reflexivity.
  - reflexivity.
Defined.

(** X17: an executable whose output is not text.  With a non-empty file path
    and a known model, an exception of the call of the executable (its output
    cannot be decoded, the shell cannot be started) leaves [transcribe] right
    after the launch: the output file is not opened and nothing is
    reported. *)
Theorem transcribe_output_undecoded (env : Env) (model p : str) (url : option str)
    (content : str) (e : exn) (w : World) :
  manifest env = Some content ->
  model ∈ models_of_manifest content ->
  p <> [] ->
  run_shell env (whisper_command model p) (written w) = Raise e ->
  transcribe env model (Some p) url w =
  (Raise e, after_events w [ReadManifest; RunShell (whisper_command model p)]).
Proof.
  intros Hm Hin Hp Hrun.
  rewrite transcribe_by_mode, determine_mode_file by done.
  rewrite (transcribe_in_mode_known _ _ _ _ _ _ _ Hm Hin).
  cbn [acquire]. unfold mret, M_ret.
  rewrite (run_and_save_not_run env model p e) by done.
  unfold after_events. cbn [written trace]. by rewrite <- app_assoc.
Qed.

Lemma transcribe_output_undecoded_witness :
  transcribe (with_binary_output sample_env) (lit "a") (Some (lit "talk.wav")) None world0 =
  (Raise UnicodeDecodeError,
   after_events world0
     [ReadManifest; RunShell (whisper_command (lit "a") (lit "talk.wav"))]).
Proof.
  apply (transcribe_output_undecoded (with_binary_output sample_env) (lit "a")
           (lit "talk.wav") None manifest_abc UnicodeDecodeError world0).
  - reflexivity.
  - rewrite models_of_manifest_abc. by left.
  - discriminate.
  - reflexivity.
Defined.

(** X18: an output file that cannot be opened.  With a non-empty file path
    and a known model, when the call of the executable returns but the path
    followed by [.txt] does not open (its directory is missing, say), the
    exception of [open] leaves [transcribe]: the executable has run, no
    transcript is written and no path is reported. *)
Theorem transcribe_output_unopened (env : Env) (model p : str) (url : option str)
    (content : str) (result : CompletedProcess) (e : exn) (w : World) :
  manifest env = Some content ->
  model ∈ models_of_manifest content ->
  p <> [] ->
  run_shell env (whisper_command model p) (written w) = Return result ->
  open_for_writing env (p ++ lit ".txt") = Some e ->
  transcribe env model (Some p) url w =
  (Raise e, after_events w [ReadManifest; RunShell (whisper_command model p);
                            OpenWrite (p ++ lit ".txt")]).
Proof.
  intros Hm Hin Hp Hrun Hopen.
  rewrite transcribe_by_mode, determine_mode_file by done.
  rewrite (transcribe_in_mode_known _ _ _ _ _ _ _ Hm Hin).
  cbn [acquire]. unfold mret, M_ret.
  rewrite (run_and_save_not_opened env model p result e) by done.
  unfold after_events. cbn [written trace]. by rewrite <- app_assoc.
Qed.

Lemma transcribe_output_unopened_witness :
  transcribe offline_env (lit "b") (Some (lit "nodir/talk.wav")) None world0 =
  (Raise (FileNotFoundError (lit "nodir/talk.wav.txt")),
   after_events world0
     [ReadManifest; RunShell (whisper_command (lit "b") (lit "nodir/talk.wav"));
      OpenWrite (lit "nodir/talk.wav.txt")]).
Proof.
  apply (transcribe_output_unopened offline_env (lit "b") (lit "nodir/talk.wav") None
           manifest_abc {| returncode := 0; stdout := raw_example; stderr := [] |}
           (FileNotFoundError (lit "nodir/talk.wav.txt")) world0).
  - reflexivity.
  - rewrite models_of_manifest_abc. right. by left.
  - discriminate.
  - reflexivity.
  - reflexivity.
Defined.

Lemma list_models_loop (env : Env) (models : list str) (w : World) :
  for_each models (fun model =>
    log (Exists (weights_path model));;
    if path_exists env (weights_path model) then echo Out (MsgPresent model)
    else echo Out (MsgMissing model)) w =
  (Return tt, after_events w (flat_map (listing env) models)).
Proof.
  revert w. induction models as [|model models IH]; intros w.
  - simpl. unfold mret, M_ret, after_events. rewrite app_nil_r. by destruct w.
  - cbn [for_each flat_map]. unfold mbind at 1, M_bind at 1.
    assert ((log (Exists (weights_path model));;
             if path_exists env (weights_path model) then echo Out (MsgPresent model)
             else echo Out (MsgMissing model)) w =
            (Return tt, after_events w (listing env model))) as ->.
    { unfold listing. destruct (path_exists env (weights_path model)); run;
        by rewrite <- app_assoc. }
    rewrite IH. unfold after_events. cbn [written trace]. by rewrite <- app_assoc.
Qed.

(** X5: [list_models] prints one line per model of the manifest, in the
    order of the manifest: it probes the weights file of the model and prints
    the model with a check mark when the file exists, with a cross when it
    does not.  It launches nothing and writes nothing. *)
Theorem list_models_lines (env : Env) (content : str) (w : World) :
  manifest env = Some content ->
  let events := ReadManifest :: flat_map (listing env) (models_of_manifest content) in
  list_models env w = (Return tt, after_events w events) /\
  existsb is_side_effect events = false /\
  length (List.filter is_out_line events) = length (models_of_manifest content).
Proof.
  intros Hm events. subst events. split; [|split].
  - unfold list_models. unfold mbind at 1, M_bind at 1.
    rewrite (get_models_ok _ _ _ Hm), list_models_loop.
    unfold after_events. cbn [written trace]. by rewrite <- app_assoc.
  - cbn [existsb is_side_effect orb].
    induction (models_of_manifest content) as [|model models IH]; [done|].
    cbn [flat_map listing app existsb is_side_effect orb]. exact IH.
  - cbn [List.filter is_out_line].
    induction (models_of_manifest content) as [|model models IH]; [done|].
    cbn [flat_map listing app List.filter is_out_line length]. by rewrite IH.
Qed.

Lemma list_models_lines_witness :
  list_models offline_env world0 =
  (Return tt,
   after_events world0
     [ReadManifest;
      Exists (weights_path (lit "a")); Echo Out (MsgPresent (lit "a"));
      Exists (weights_path (lit "b")); Echo Out (MsgMissing (lit "b"));
      Exists (weights_path (lit "c")); Echo Out (MsgMissing (lit "c"))]).
Proof.
  etransitivity.
  - apply (list_models_lines offline_env manifest_abc world0). reflexivity.
  - vm_compute. reflexivity.
Defined.

Lemma download_model_no_manifest (env : Env) (model : str) (w : World) :
  manifest env = None ->
  download_model env model w =
  (Raise (FileNotFoundError MANIFEST_PATH), after_events w [ReadManifest]).
Proof.
  intros Hm. unfold download_model. unfold mbind at 1, M_bind at 1.
  by rewrite (get_models_missing _ _ Hm).
Qed.

Lemma download_model_not_listed (env : Env) (model content : str) (w : World) :
  manifest env = Some content ->
  model ∉ models_of_manifest content ->
  download_model env model w =
  (Return tt, after_events w
     [ReadManifest; Echo Err (MsgModelNotFound (models_of_manifest content))]).
Proof.
  intros Hm Hnot. unfold download_model. unfold mbind at 1, M_bind at 1.
  rewrite (get_models_ok _ _ _ Hm). rewrite bool_decide_eq_false_2 by done.
  run. by rewrite <- app_assoc.
Qed.

(** X6: when the download script cannot be opened, every command stops at
    once with the file-not-found exception: [download_model] and
    [list_models] always, [transcribe] as soon as a file path or a URL is
    given.  Nothing is echoed, acquired, launched or written. *)
Theorem commands_need_manifest (env : Env) (model : str)
    (file_path url : option str) (w : World) :
  manifest env = None ->
  let stopped := (Raise (FileNotFoundError MANIFEST_PATH), after_events w [ReadManifest]) in
  download_model env model w = stopped /\
  list_models env w = stopped /\
  (determine_mode file_path url <> NOT_DETERMINED ->
   transcribe env model file_path url w = stopped).
Proof.
  intros Hm stopped. subst stopped. split; [|split].
  - unfold download_model. unfold mbind at 1, M_bind at 1.
    by rewrite (get_models_missing _ _ Hm).
  - unfold list_models. unfold mbind at 1, M_bind at 1.
    by rewrite (get_models_missing _ _ Hm).
  - intros Hmode. rewrite transcribe_by_mode.
    destruct (determine_mode file_path url); try done;
      by apply transcribe_in_mode_no_manifest.
Qed.

Lemma commands_need_manifest_witness :
  download_model (without_manifest sample_env) (lit "a") world0 =
  (Raise (FileNotFoundError MANIFEST_PATH), after_events world0 [ReadManifest]).
Proof.
  apply (commands_need_manifest (without_manifest sample_env) (lit "a") None None world0).
  reflexivity.
Defined.

(** X7: [download_model] with a model the manifest does not list launches no
    script: it reads the manifest, reports the error with the list of models
    on the error stream and returns. *)
Theorem download_model_unknown (env : Env) (model content : str) (w : World) :
  manifest env = Some content ->
  model ∉ models_of_manifest content ->
  download_model env model w =
  (Return tt, after_events w
     [ReadManifest; Echo Err (MsgModelNotFound (models_of_manifest content))]).
Proof. apply download_model_not_listed. Qed.

Lemma download_model_unknown_witness :
  download_model sample_env (lit "huge") world0 =
  (Return tt, after_events world0
     [ReadManifest; Echo Err (MsgModelNotFound [lit "a"; lit "b"; lit "c"])]).
Proof.
  apply (download_model_unknown sample_env (lit "huge") manifest_abc world0).
  - reflexivity.
  - rewrite models_of_manifest_abc. intros H.
    repeat (apply elem_of_cons in H as [H|H]; [discriminate H|]).
    by apply elem_of_nil in H.
Defined.

(** X8: a script that cannot be launched at all is not caught by
    [download_model]: the handler is for a non-zero exit only, so the
    file-not-found exception of the launch leaves the command, for the
    download script at once and for the preparation after the success of the
    download has been reported.  The preparation is launched as one argument,
    the script and the model with a space between them. *)
Theorem download_model_launch_failure (env : Env) (model content : str) (w : World) :
  manifest env = Some content ->
  model ∈ models_of_manifest content ->
  (run_argv env [DOWNLOAD_SCRIPT; model] (written w) = NoSuchProgram ->
   download_model env model w =
   (Raise (FileNotFoundError DOWNLOAD_SCRIPT),
    after_events w [ReadManifest; RunArgv [DOWNLOAD_SCRIPT; model]])) /\
  (run_argv env [DOWNLOAD_SCRIPT; model] (written w) = Exited 0 ->
   run_argv env [COREML_SCRIPT ++ lit " " ++ model] (written w) = NoSuchProgram ->
   download_model env model w =
   (Raise (FileNotFoundError (COREML_SCRIPT ++ lit " " ++ model)),
    after_events w [ReadManifest; RunArgv [DOWNLOAD_SCRIPT; model];
                    Echo Out (MsgDownloaded model);
                    RunArgv [COREML_SCRIPT ++ lit " " ++ model]])).
Proof.
  intros Hm Hin. pose proof (download_model_cases env model content w Hm Hin) as Hcases.
  split.
  - intros Hdl. by rewrite Hcases, Hdl.
  - intros Hdl Hcm. unfold coreml_argv in Hcases. by rewrite Hcases, Hdl, Hcm.
Qed.

Lemma download_model_launch_failure_witness :
  download_model (without_coreml sample_env) (lit "a") world0 =
  (Raise (FileNotFoundError (COREML_SCRIPT ++ lit " " ++ lit "a")),
   after_events world0
     [ReadManifest; RunArgv [DOWNLOAD_SCRIPT; lit "a"];
      Echo Out (MsgDownloaded (lit "a"));
      RunArgv [COREML_SCRIPT ++ lit " " ++ lit "a"]]).
Proof.
  apply (proj2 (download_model_launch_failure (without_coreml sample_env) (lit "a")
                  manifest_abc world0 eq_refl
                  ltac:(rewrite models_of_manifest_abc; by left))).
  - reflexivity.
  - reflexivity.
Defined.

(** X9: what [download_model] never does.  Whatever the environment, the
    model and the world, it leaves the files as they are, it never lets the
    non-zero-exit exception out, and it never prints the message of its
    [else] branch, the failed preparation: with [check=True] a non-zero exit
    raises before that test is reached. *)
Theorem download_model_never (env : Env) (model : str) (w : World) :
  exists events,
    snd (download_model env model w) = after_events w events /\
    (forall rc, fst (download_model env model w) <> Raise (CalledProcessError rc)) /\
    Echo Err MsgCoreMLFailed ∉ events.
Proof.
  assert (Hnot : forall es, Forall (fun e => e <> Echo Err MsgCoreMLFailed) es ->
                            Echo Err MsgCoreMLFailed ∉ es).
  { intros es Hall Hel. rewrite Forall_forall in Hall. by apply (Hall _ Hel). }
  destruct (manifest env) as [content|] eqn:Hm.
  - destruct (decide (model ∈ models_of_manifest content)) as [Hin|Hout].
    + rewrite (download_model_cases env model content w Hm Hin).
      destruct (run_argv env [DOWNLOAD_SCRIPT; model] (written w)) as [[|rc|rc]|];
        [destruct (run_argv env (coreml_argv model) (written w)) as [[|rc'|rc']|]| | |];
        (eexists; split; [reflexivity|]; split; [done|]; apply Hnot;
         repeat constructor; discriminate).
    + rewrite (download_model_not_listed env model content w Hm Hout).
      eexists; split; [reflexivity|]; split; [done|]. apply Hnot.
      repeat constructor; discriminate.
  - rewrite (download_model_no_manifest env model w Hm).
    eexists; split; [reflexivity|]; split; [done|]. apply Hnot.
    repeat constructor; discriminate.
Qed.

Lemma scripts_differ : DOWNLOAD_SCRIPT <> COREML_SCRIPT.
Proof. intros H. vm_compute in H. discriminate H. Qed.

(** C8 fails on the code: the preparation script is never launched with the
    model as its argument.  The second launch passes one argument, the script
    path and the model joined by a space, where the first passes the script
    and the model; so in every run no launch has the preparation script as
    its program.  On a tree where both scripts are in place and exit 0 the
    second launch finds no program of that name: the file-not-found exception
    is not caught, it ends the command after the success of the download was
    reported, and the preparation is neither run nor reported. *)
Theorem preparation_script_never_launched :
  (forall env model w, exists events,
     snd (download_model env model w) = after_events w events /\
     RunArgv [COREML_SCRIPT; model] ∉ events) /\
  download_model (real_tree sample_env) (lit "a") world0 =
  (Raise (FileNotFoundError (COREML_SCRIPT ++ lit " " ++ lit "a")),
   after_events world0
     [ReadManifest; RunArgv [DOWNLOAD_SCRIPT; lit "a"];
      Echo Out (MsgDownloaded (lit "a"));
      RunArgv [COREML_SCRIPT ++ lit " " ++ lit "a"]]).
Proof.
  split; [|vm_compute; reflexivity].
  intros env model w.
  assert (Hnot : forall es,
            Forall (fun e => e <> RunArgv [COREML_SCRIPT; model]) es ->
            RunArgv [COREML_SCRIPT; model] ∉ es).
  { intros es Hall Hel. rewrite Forall_forall in Hall. by apply (Hall _ Hel). }
  assert (Hdl : RunArgv [DOWNLOAD_SCRIPT; model] <> RunArgv [COREML_SCRIPT; model]).
  { intros H. apply scripts_differ. congruence. }
  assert (Hcm : RunArgv (coreml_argv model) <> RunArgv [COREML_SCRIPT; model])
    by discriminate.
  destruct (manifest env) as [content|] eqn:Hm.
  - destruct (decide (model ∈ models_of_manifest content)) as [Hin|Hout].
    + rewrite (download_model_cases env model content w Hm Hin).
      destruct (run_argv env [DOWNLOAD_SCRIPT; model] (written w)) as [[|rc|rc]|];
        [destruct (run_argv env (coreml_argv model) (written w)) as [[|rc'|rc']|]| | |];
        (eexists; split; [reflexivity|]; apply Hnot;
         repeat constructor; try done; discriminate).
    + rewrite (download_model_not_listed env model content w Hm Hout).
      eexists; split; [reflexivity|]. apply Hnot. repeat constructor; discriminate.
  - rewrite (download_model_no_manifest env model w Hm).
    eexists; split; [reflexivity|]. apply Hnot. repeat constructor; discriminate.
Qed.

(** ** Further properties of the extraction *)

Lemma last_in (P : str -> Prop) (l : list str) (d : str) :
  l <> [] -> Forall P l -> P (List.last l d).
Proof.
  intros Hne Hall. destruct (exists_last Hne) as (u & x & ->).
  rewrite last_last. apply Forall_app in Hall as [_ Hx]. by inversion Hx.
Qed.

Lemma after_last_no_sep (c : char) (s : str) : c ∉ after_last c s.
Proof.
  rewrite <- last_piece_split. unfold Str.last_piece.
  apply (last_in (fun w => c ∉ w)); [|apply split_no_sep].
  by destruct (split_cons c s) as (w & ws & ->).
Qed.

Lemma after_last_suffix (c : char) (s : str) : exists p, s = p ++ after_last c s.
Proof.
  induction s as [|d s (p & E)]; [by exists []|]. cbn [after_last].
  destruct (existsb (N.eqb c) s).
  - exists (d :: p). by rewrite E at 1.
  - destruct (N.eqb d c); [by exists [d] | by exists []].
Qed.

Lemma strip_subset (x : char) (s : str) : x ∈ Str.strip s -> x ∈ s.
Proof.
  intros H. destruct (strip_spec s) as (a & b & E & _). rewrite E.
  apply elem_of_app. right. apply elem_of_app. by left.
Qed.

(** X10: every line of a transcript is clean: it holds no newline and no
    closing bracket, and no white space at either end, whatever the raw
    output was. *)
Theorem transcript_lines_clean (raw : str) :
  Forall (fun t => (NL ∉ t) /\ (RBRACKET ∉ t) /\ tight t = true)
    (transcription_lines raw).
Proof.
  unfold transcription_lines. rewrite extract_loop. cbn [app].
  apply Forall_forall. intros t Ht. apply list_elem_of_In, in_map_iff in Ht.
  destruct Ht as (line & <- & Hline). apply list_elem_of_In, list_elem_of_filter in Hline.
  destruct Hline as [_ Hline].
  pose proof (split_no_sep NL raw) as Hnl. rewrite Forall_forall in Hnl.
  specialize (Hnl _ Hline). unfold caption_text. rewrite last_piece_split.
  split; [|split].
  - intros Hin. apply strip_subset in Hin.
    destruct (after_last_suffix RBRACKET line) as (p & E).
    apply Hnl. rewrite E. apply elem_of_app. by right.
  - intros Hin. apply strip_subset in Hin. by apply (after_last_no_sep RBRACKET line).
  - by destruct (strip_spec (after_last RBRACKET line)) as (a & b & _ & _ & _ & Ht).
Qed.

Lemma has_false (c : char) (s : str) : has c s = false <-> c ∉ s.
Proof. apply existsb_eqb_false. Qed.

Lemma not_in_lit_cons (c d : char) (s : str) : c <> d -> c ∉ s -> c ∉ d :: s.
Proof. intros. by apply not_elem_of_cons. Qed.

Lemma caption_line_shape (start stop text : str) :
  is_caption (caption_line start stop text) = true.
Proof.
  apply is_caption_spec. unfold caption_line. split.
  - eauto.
  - exists (lit "[" ++ start ++ lit " "), (lit " " ++ stop ++ lit "]  " ++ text).
    rewrite <- !app_assoc. done.
Qed.

Lemma caption_line_text (start stop text : str) :
  RBRACKET ∉ text -> tight text = true ->
  caption_text (caption_line start stop text) = text.
Proof.
  intros Hno Ht. unfold caption_text, caption_line. rewrite last_piece_split.
  replace (lit "[" ++ start ++ lit " --> " ++ stop ++ lit "]  " ++ text)
    with ((lit "[" ++ start ++ lit " --> " ++ stop) ++ RBRACKET :: (lit "  " ++ text))
    by (by rewrite <- !app_assoc).
  rewrite after_last_app.
  - rewrite <- (app_nil_r text) at 1. apply strip_tight; [|constructor|done].
    by repeat constructor.
  - apply not_elem_of_app. split; [|done].
    intros H. repeat (apply elem_of_cons in H as [H|H]; [discriminate H|]).
    by apply elem_of_nil in H.
Qed.

Lemma caption_line_no_newline (start stop text : str) :
  NL ∉ start -> NL ∉ stop -> NL ∉ text -> NL ∉ caption_line start stop text.
Proof.
  intros H1 H2 H3. unfold caption_line.
  assert (Hlit : forall s : string, existsb (N.eqb NL) (lit s) = false -> NL ∉ lit s)
    by (intros s; apply existsb_eqb_false).
  rewrite !not_elem_of_app. repeat split; try done; by apply Hlit.
Qed.

(** X11: the captions come back.  When the executable prints well-formed
    lines separated by newlines, captions and other lines in any order, the
    transcript is the texts of the captions, in order, joined with newlines:
    the time stamps, the two spaces and the other lines are gone. *)
Theorem captions_extracted (ls : list output_line) :
  forallb well_formed ls = true ->
  transcription (Str.join [NL] (map print_line ls)) = Str.join [NL] (captions_of ls).
Proof.
  intros Hwf. rewrite forallb_forall in Hwf.
  assert (Hlines : Forall (fun w => NL ∉ w) (map print_line ls)).
  { apply Forall_forall. intros w Hw. apply list_elem_of_In, in_map_iff in Hw.
    destruct Hw as (l & <- & Hl). specialize (Hwf l Hl). destruct l as [a b t|s]; simpl in Hwf.
    - repeat (apply andb_true_iff in Hwf as [Hwf ?]).
      apply caption_line_no_newline; apply has_false; by apply negb_true_iff.
    - apply andb_true_iff in Hwf as [Hwf _]. apply has_false. by apply negb_true_iff. }
  assert (Hkept : map caption_text
                    (filter (fun line => Is_true (is_caption line)) (map print_line ls))
                  = captions_of ls).
  { clear Hlines. induction ls as [|l ls IH]; [done|].
    assert (Hl := Hwf l (or_introl eq_refl)).
    assert (IH' := IH (fun x Hx => Hwf x (or_intror Hx))). clear IH.
    cbn [map]. destruct l as [a b t|s]; simpl in Hl; cbn [print_line].
    - repeat (apply andb_true_iff in Hl as [Hl ?]).
      rewrite filter_cons_True by (by rewrite caption_line_shape).
      cbn [map captions_of flat_map app print_line]. f_equal; [|exact IH'].
      apply caption_line_text; [|done]. apply has_false. by apply negb_true_iff.
    - apply andb_true_iff in Hl as [_ Hl]. apply negb_true_iff in Hl.
      rewrite filter_cons_False by (rewrite Hl; intros []).
      exact IH'. }
  unfold transcription, transcription_lines. rewrite extract_loop. cbn [app].
  destruct ls as [|l ls]; [done|].
  rewrite split_join by done. by rewrite Hkept.
Qed.

Lemma captions_extracted_witness :
  transcription
    (lit "" ++ [NL] ++
     lit "[00:00:00.000 --> 00:00:02.000]  hello world" ++ [NL] ++
     lit "whisper_print_timings: total time = 1 ms" ++ [NL] ++
     lit "[00:00:02.000 --> 00:00:04.000]  second line") =
  lit "hello world" ++ [NL] ++ lit "second line".
Proof.
  apply (captions_extracted
           [Noise [];
            Caption (lit "00:00:00.000") (lit "00:00:02.000") (lit "hello world");
            Noise (lit "whisper_print_timings: total time = 1 ms");
            Caption (lit "00:00:02.000") (lit "00:00:04.000") (lit "second line")]).
  reflexivity.
Defined.

(** ** Further properties of the catalog *)

Lemma contains_char_false (c : char) (s : str) :
  c ∉ s -> Str.contains [c] s = false.
Proof.
  intros H. apply not_true_is_false. intros Hc. apply contains_spec in Hc.
  destruct Hc as (a & b & E). apply H. rewrite E. apply elem_of_app. right. by left.
Qed.

Lemma blank_no_quote (s : str) : blank s -> QUOTE ∉ s.
Proof.
  intros H Hin. rewrite Forall_forall in H. specialize (H _ Hin). discriminate H.
Qed.

Lemma forallb_blank (s : str) : forallb Str.isspace s = true -> blank s.
Proof.
  intros H. rewrite forallb_forall in H. apply Forall_forall.
  intros c Hc. by apply H, list_elem_of_In.
Qed.

Lemma strip_blank (s : str) : blank s -> Str.strip s = [].
Proof.
  intros H. rewrite <- (app_nil_r s).
  change (s ++ []) with (s ++ [] ++ []). apply strip_tight; by try constructor.
Qed.

Lemma find_marker_first (before rest : str) :
  Str.contains MARKER before = false ->
  Str.find (before ++ MARKER ++ rest) MARKER 0 + 8 =
  Z.of_nat (length (before ++ MARKER)).
Proof.
  intros H. rewrite find_zero, find_from_marker by done.
  rewrite length_app. change (length MARKER) with 8%nat. lia.
Qed.

(** X12: what the catalog reads.  When the text before the first marker does
    not hold the marker, the models are the lines of the text between the
    marker and the next double quote, that text trimmed at both ends first;
    what follows the quote is ignored. *)
Theorem models_between_marker_and_quote (before field after : str) :
  Str.contains MARKER before = false ->
  QUOTE ∉ field ->
  models_of_manifest (before ++ MARKER ++ field ++ QUOTE :: after) =
  Str.split NL (Str.strip field).
Proof.
  intros Hbefore Hquote. unfold models_of_manifest.
  rewrite find_marker_first by done.
  rewrite (app_assoc before MARKER).
  rewrite find_after, find_from_char by done.
  by rewrite slice_middle.
Qed.

Lemma models_between_marker_and_quote_witness :
  models_of_manifest
    (lit "# models" ++ [NL] ++ MARKER ++ lit " tiny" ++ [NL] ++ lit " base " ++
     [QUOTE] ++ lit " # end") =
  [lit "tiny"; lit " base"].
Proof.
  apply (models_between_marker_and_quote (lit "# models" ++ [NL])
           (lit " tiny" ++ [NL] ++ lit " base ") (lit " # end")).
  - reflexivity.
  - apply existsb_eqb_false. reflexivity.
Defined.

(** X13: the round trip survives white space around the list.  A non-empty
    list of identifiers written after the first marker, with any white space
    (blank lines, indentation of the first line) before the first and after
    the last identifier, is read back exactly. *)
Theorem padded_manifest_round_trip (before lead trail after : str) (ids : list str) :
  ids <> [] ->
  forallb is_identifier ids = true ->
  Str.contains MARKER before = false ->
  forallb Str.isspace lead = true ->
  forallb Str.isspace trail = true ->
  models_of_manifest
    (before ++ MARKER ++ (lead ++ Str.join [NL] ids ++ trail) ++ QUOTE :: after) = ids.
Proof.
  intros Hne Hids Hbefore Hlead Htrail.
  apply forallb_blank in Hlead, Htrail.
  rewrite forallb_forall in Hids.
  assert (Hall : Forall (fun s => is_identifier s = true) ids).
  { apply Forall_forall. intros s Hs. by apply Hids, list_elem_of_In. }
  clear Hids.
  assert (Hquote : QUOTE ∉ Str.join [NL] ids).
  { apply join_without; [done|]. eapply Forall_impl; [exact Hall|].
    intros s Hs Hin. apply identifier_chars in Hs as [_ Hs].
    rewrite Forall_forall in Hs. by destruct (Hs _ Hin). }
  assert (Hnl : Forall (fun s => NL ∉ s) ids).
  { eapply Forall_impl; [exact Hall|].
    intros s Hs Hin. apply identifier_chars in Hs as [_ Hs].
    rewrite Forall_forall in Hs. by destruct (Hs _ Hin). }
  assert (Htight : tight (Str.join [NL] ids) = true).
  { apply join_tight; [done|]. eapply Forall_impl; [exact Hall|].
    intros s Hs. split; [by apply identifier_tight | by apply identifier_chars]. }
  unfold models_of_manifest.
  rewrite find_marker_first by done.
  rewrite (app_assoc before MARKER).
  rewrite find_after, find_from_char.
  - rewrite slice_middle, strip_tight by done. by apply split_join.
  - rewrite !not_elem_of_app. repeat split; [by apply blank_no_quote | done |].
    by apply blank_no_quote.
Qed.

Lemma padded_manifest_round_trip_witness :
  models_of_manifest
    (lit "#!/bin/sh" ++ [NL] ++ MARKER ++ [NL] ++ lit "tiny" ++ [NL] ++ lit "base.en" ++
     [NL] ++ [QUOTE] ++ [NL]) =
  [lit "tiny"; lit "base.en"].
Proof.
  apply (padded_manifest_round_trip (lit "#!/bin/sh" ++ [NL]) [NL] [NL] [NL]
           [lit "tiny"; lit "base.en"]).
  - discriminate.
  - reflexivity.
  - reflexivity.
  - reflexivity.
  - reflexivity.
Defined.

(** X14: an empty list is one model with an empty name.  When nothing but
    white space stands between the marker and the closing quote, the catalog
    is the one-element list of the empty string, so the empty string passes
    the membership test of [transcribe] and [download_model]. *)
Theorem empty_field_lists_empty_name (before field after : str) :
  Str.contains MARKER before = false ->
  forallb Str.isspace field = true ->
  models_of_manifest (before ++ MARKER ++ field ++ QUOTE :: after) = [[]] /\
  [] ∈ models_of_manifest (before ++ MARKER ++ field ++ QUOTE :: after).
Proof.
  intros Hbefore Hfield. apply forallb_blank in Hfield.
  assert (models_of_manifest (before ++ MARKER ++ field ++ QUOTE :: after) = [[]]) as ->.
  { unfold models_of_manifest. rewrite find_marker_first by done.
    rewrite (app_assoc before MARKER).
    rewrite find_after, find_from_char by by apply blank_no_quote.
    by rewrite slice_middle, strip_blank. }
  split; [done | by left].
Qed.

Lemma empty_field_lists_empty_name_witness :
  models_of_manifest (MARKER ++ [QUOTE]) = [[]] /\
  [] ∈ models_of_manifest (MARKER ++ [QUOTE]).
Proof.
  apply (empty_field_lists_empty_name [] [] []).
  - reflexivity.
  - reflexivity.
Defined.

Lemma take_removelast (s : str) :
  take (Z.to_nat (Z.of_nat (length s) - 1)) s = removelast s.
Proof.
  rewrite removelast_firstn_len. f_equal. lia.
Qed.

(** X15: a list that is never closed loses its last character.  When no
    double quote follows the first marker, the search for it answers -1 and
    the slice stops one character before the end of the file: the models are
    the lines of the rest of the file without its last character, trimmed. *)
Theorem unterminated_manifest (before rest : str) :
  Str.contains MARKER before = false ->
  QUOTE ∉ rest ->
  models_of_manifest (before ++ MARKER ++ rest) =
  Str.split NL (Str.strip (removelast rest)).
Proof.
  intros Hbefore Hquote. unfold models_of_manifest.
  rewrite find_marker_first by done.
  rewrite (app_assoc before MARKER).
  rewrite find_after, find_from_absent by by apply contains_char_false.
  do 2 f_equal. unfold Str.slice, Str.clamp.
  rewrite !length_app. change (length MARKER) with 8%nat.
  destruct (Z.ltb_spec (Z.of_nat (length before + 8)) 0); [lia|].
  cbn [Z.ltb Z.compare]. rewrite Z.max_l, Z.min_l by lia.
  replace (Z.to_nat (Z.of_nat (length before + 8))) with (length (before ++ MARKER))
    by (rewrite length_app; change (length MARKER) with 8%nat; lia).
  rewrite drop_app_length. rewrite <- take_removelast. f_equal. lia.
Qed.

Lemma unterminated_manifest_witness :
  models_of_manifest (MARKER ++ lit "tiny" ++ [NL] ++ lit "base") =
  [lit "tiny"; lit "bas"].
Proof.
  apply (unterminated_manifest [] (lit "tiny" ++ [NL] ++ lit "base")).
  - reflexivity.
  - apply existsb_eqb_false. reflexivity.
Defined.
